(** * Monad dashboard: RPC aggregation and polling layer

    A shallow embedding of the TypeScript service module (the file that
    declares [checkRateLimit], [getBlockVisionData], [batchBlockVisionData]
    and the aggregators) and of the two polling components that merge
    fetched results into panel state (the events log and the gas section).

    Modelling conventions, used throughout:
    - a JavaScript number that the code only ever uses as an integer is a
      [Z]; [NaN] is kept where [parseInt] can produce it ([jsnum]);
      rates and quotients are exact rationals ([Q]), so binary64 rounding
      is not represented;
    - a string is a sequence of ASCII code units; white space is the ASCII
      part of the ECMAScript white-space set;
    - [undefined] and [null] of an optional field are [None];
    - a function that can throw returns an [outcome]; code that reads the
      clock, touches the rate-limit counters or calls [fetch] lives in the
      state-and-exception monad [M] over [World];
    - the provider is an oracle from requests to replies: a promise that is
      awaited is the value it settles to, and requests are issued in
      program order. *)

From Stdlib Require Import ZArith QArith Qround Lia String Ascii.
From Stdlib Require Import HexadecimalString.
From stdpp Require Import base option list sorting strings pretty gmap.

Open Scope Z_scope.

(* ================================================================== *)
(** * JavaScript values and exceptions *)
(* ================================================================== *)

(** A JavaScript number restricted to what [parseInt] returns here. *)
Inductive jsnum : Type :=
| NaN
| Num (z : Z).

Inductive exn : Type :=
| Error (message : string)
| SyntaxError (message : string)
| TypeError (message : string)
| RangeError (message : string).

Inductive outcome (A : Type) : Type :=
| Returned (a : A)
| Threw (e : exn).
Arguments Returned {A} a.
Arguments Threw {A} e.

(** Truthiness of an optional string: [undefined], [null] and [""] are
    falsy. *)
Definition truthyStr (s : option string) : bool :=
  match s with
  | Some (String _ _) => true
  | _ => false
  end.

(** [a || b] on an optional string with a string default. *)
Definition orElse (a : option string) (b : string) : string :=
  match a with
  | Some (String c s) => String c s
  | _ => b
  end.

(** Truthiness of a number: [NaN] and [0] are falsy. *)
Definition truthyNum (n : jsnum) : bool :=
  match n with
  | NaN => false
  | Num z => negb (z =? 0)
  end.

(** [n || 0] on numbers. *)
Definition numOrZero (n : jsnum) : jsnum :=
  if truthyNum n then n else Num 0.

Definition numAdd (a b : jsnum) : jsnum :=
  match a, b with
  | Num x, Num y => Num (x + y)
  | _, _ => NaN
  end.

(** [Math.floor(n / 60)]. *)
Definition floorDiv60 (n : jsnum) : jsnum :=
  match n with
  | Num x => Num (x / 60)
  | NaN => NaN
  end.

Definition jsnum_eqb (a b : jsnum) : bool :=
  match a, b with
  | NaN, NaN => true
  | Num x, Num y => x =? y
  | _, _ => false
  end.

(** [s.includes(needle)]. *)
Fixpoint includes (s needle : string) : bool :=
  String.prefix needle s ||
  match s with
  | EmptyString => false
  | String _ s' => includes s' needle
  end.

(* ------------------------------------------------------------------ *)
(** ** [parseInt] and [BigInt] on strings *)
(* ------------------------------------------------------------------ *)

Definition isWhiteSpace (c : ascii) : bool :=
  let n := nat_of_ascii c in
  ((n =? 9) || (n =? 10) || (n =? 11) || (n =? 12) || (n =? 13) || (n =? 32))%nat.

Fixpoint trimStart (s : string) : string :=
  match s with
  | String c s' => if isWhiteSpace c then trimStart s' else s
  | EmptyString => EmptyString
  end.

Fixpoint trimEnd (s : string) : string :=
  match s with
  | EmptyString => EmptyString
  | String c s' =>
      match trimEnd s' with
      | EmptyString => if isWhiteSpace c then EmptyString else String c EmptyString
      | t => String c t
      end
  end.

Definition trimString (s : string) : string := trimEnd (trimStart s).

(** Value of a code unit as a digit: [0-9], then [a-z] or [A-Z] for
    10 to 35. *)
Definition digitValue (c : ascii) : option Z :=
  let n := Z.of_nat (nat_of_ascii c) in
  if (48 <=? n) && (n <=? 57) then Some (n - 48)
  else if (97 <=? n) && (n <=? 122) then Some (n - 87)
  else if (65 <=? n) && (n <=? 90) then Some (n - 55)
  else None.

(** The digits of the longest prefix of [s] made of radix-[R] digits. *)
Fixpoint digitsPrefix (R : Z) (s : string) : list Z :=
  match s with
  | String c s' =>
      match digitValue c with
      | Some d => if d <? R then d :: digitsPrefix R s' else []
      | None => []
      end
  | EmptyString => []
  end.

Definition mathInt (R : Z) (ds : list Z) : Z :=
  fold_left (fun acc d => acc * R + d) ds 0.

Definition stripHexPrefix (s : string) : option string :=
  match s with
  | String "0" (String "x" r) => Some r
  | String "0" (String "X" r) => Some r
  | _ => None
  end.

Definition stripSign (s : string) : Z * string :=
  match s with
  | String "-" r => (-1, r)
  | String "+" r => (1, r)
  | _ => (1, s)
  end.

(** [parseInt(str, radix)]; [radix = 0] stands for an absent radix. *)
Definition parseInt (str : string) (radix : Z) : jsnum :=
  let '(sign, S1) := stripSign (trimStart str) in
  if negb (radix =? 0) && ((radix <? 2) || (36 <? radix)) then NaN
  else
    let R0 := if radix =? 0 then 10 else radix in
    let stripPrefix := (radix =? 0) || (radix =? 16) in
    let '(R, S2) :=
      match (if stripPrefix then stripHexPrefix S1 else None) with
      | Some r => (16, r)
      | None => (R0, S1)
      end in
    match digitsPrefix R S2 with
    | [] => NaN
    | ds => Num (sign * mathInt R ds)
    end.

(** Every code unit of [s] is a radix-[R] digit. *)
Fixpoint allDigits (R : Z) (s : string) : bool :=
  match s with
  | EmptyString => true
  | String c s' =>
      match digitValue c with
      | Some d => (d <? R) && allDigits R s'
      | None => false
      end
  end.

Definition literalValue (R : Z) (s : string) : option Z :=
  match s with
  | EmptyString => None
  | _ => if allDigits R s then Some (mathInt R (digitsPrefix R s)) else None
  end.

(** [StringToBigInt]: white space is trimmed on both sides; the empty
    string is [0n]; otherwise the text must be a whole integer literal:
    a [0x], [0o] or [0b] literal, or decimal digits with an optional
    sign. [None] is the abstract operation's [undefined]. *)
Definition StringToBigInt (str : string) : option Z :=
  let t := trimString str in
  match t with
  | EmptyString => Some 0
  | String "0" (String "x" r) | String "0" (String "X" r) => literalValue 16 r
  | String "0" (String "o" r) | String "0" (String "O" r) => literalValue 8 r
  | String "0" (String "b" r) | String "0" (String "B" r) => literalValue 2 r
  | String "-" r => z ← literalValue 10 r; Some (- z)
  | String "+" r => literalValue 10 r
  | _ => literalValue 10 t
  end.

(** [BigInt(str)] on a string argument. *)
Definition BigInt (str : string) : outcome Z :=
  match StringToBigInt str with
  | Some z => Returned z
  | None => Threw (SyntaxError ("Cannot convert " +:+ str +:+ " to a BigInt"))
  end.

(* ================================================================== *)
(** * Response normalizer *)
(* ================================================================== *)

(** [const hexToNumber = (hex) => hex ? parseInt(hex, 16) : 0] *)
Definition hexToNumber (hex : option string) : outcome jsnum :=
  match hex with
  | Some s => if truthyStr hex then Returned (parseInt s 16) else Returned (Num 0)
  | None => Returned (Num 0)
  end.

(** [const hexToBigInt = (hex) => hex ? BigInt(hex) : BigInt(0)] *)
Definition hexToBigInt (hex : option string) : outcome Z :=
  match hex with
  | Some s => if truthyStr hex then BigInt s else Returned 0
  | None => Returned 0
  end.

(* ================================================================== *)
(** * RPC client *)
(* ================================================================== *)

(** ** Requests and replies *)

Inductive jsval : Type :=
| JStr (s : string)
| JBool (b : bool).

(** A request before it is tagged: [{ method, params }]. *)
Record RpcCall : Type := {
  rpc_method : string;
  rpc_params : list jsval
}.

(** A tagged request object: [{ jsonrpc: '2.0', method, params, id }]. *)
Record RpcRequest : Type := {
  req_call : RpcCall;
  req_id : Z
}.

(** The body handed to [fetch]: a bare object or an array of objects. *)
Inductive Payload : Type :=
| SinglePayload (r : RpcRequest)
| BatchPayload (rs : list RpcRequest).

Record Request : Type := {
  req_url : string;
  req_body : Payload
}.

Record RpcError : Type := { message : string }.

(** [interface BlockVisionResponse { jsonrpc; id; result; error? }];
    a [result] that is [null] or absent is [None]. *)
Record BlockVisionResponse (R : Type) : Type := {
  res_id : Z;
  res_result : option R;
  res_error : option RpcError
}.
Arguments res_id {R} _.
Arguments res_result {R} _.
Arguments res_error {R} _.

(** What a batch body parses to. *)
Inductive BatchBody (R : Type) : Type :=
| BatchArray (data : list (BlockVisionResponse R))
| BatchObject (err : option RpcError)
| BatchNull.
Arguments BatchArray {R} data.
Arguments BatchObject {R} err.
Arguments BatchNull {R}.

(** How one [fetch] followed by [response.json()] settles. *)
Inductive HttpReply (A : Type) : Type :=
| FetchRejected (e : exn)
| HttpNotOk (status : Z)
| JsonRejected (e : exn)
| JsonBody (data : A).
Arguments FetchRejected {A} e.
Arguments HttpNotOk {A} status.
Arguments JsonRejected {A} e.
Arguments JsonBody {A} data.

(** ** The world: module-level counters, the clock and the wire *)

Record World : Type := {
  requestCount : Z;
  lastResetTime : Z;
  clock : nat -> Z;      (* the successive values of [Date.now()] *)
  ticks : nat;           (* how many of them have been read *)
  sent : list Request    (* what was handed to [fetch], oldest first *)
}.

Definition M (A : Type) : Type := World -> outcome A * World.

Definition ret {A} (a : A) : M A := fun w => (Returned a, w).
Definition throw {A} (e : exn) : M A := fun w => (Threw e, w).
Definition bind {A B} (m : M A) (k : A -> M B) : M B :=
  fun w =>
    match m w with
    | (Returned a, w') => k a w'
    | (Threw e, w') => (Threw e, w')
    end.
(** [try { m } catch (error) { h error }] *)
Definition tryCatch {A} (m : M A) (h : exn -> M A) : M A :=
  fun w =>
    match m w with
    | (Returned a, w') => (Returned a, w')
    | (Threw e, w') => h e w'
    end.
Definition lift {A} (o : outcome A) : M A := fun w => (o, w).

Global Instance M_ret : MRet M := @ret.
Global Instance M_bind : MBind M := fun A B k m => bind m k.

(** [Date.now()] *)
Definition Date_now : M Z :=
  fun w =>
    (Returned (clock w (ticks w)),
     {| requestCount := requestCount w; lastResetTime := lastResetTime w;
        clock := clock w; ticks := S (ticks w); sent := sent w |}).

Definition setRate (count last : Z) : M unit :=
  fun w =>
    (Returned tt,
     {| requestCount := count; lastResetTime := last;
        clock := clock w; ticks := ticks w; sent := sent w |}).

Definition getRequestCount : M Z := fun w => (Returned (requestCount w), w).
Definition getLastResetTime : M Z := fun w => (Returned (lastResetTime w), w).

(** [fetch(url, { method: 'POST', body })]: the request goes on the wire
    and the provider's reply comes back. *)
Definition fetch {A} (provider : Request -> HttpReply A) (r : Request)
  : M (HttpReply A) :=
  fun w =>
    (Returned (provider r),
     {| requestCount := requestCount w; lastResetTime := lastResetTime w;
        clock := clock w; ticks := ticks w; sent := sent w ++ [r] |}).

(** [Promise.all(l.map(f))] for async [f]: every call runs up to its
    [fetch] in list order, whether or not an earlier one fails; the
    whole rejects if one of them does. *)
Definition joinOutcome {B} (r : outcome B) (rs : outcome (list B)) : outcome (list B) :=
  match r, rs with
  | Returned b, Returned bs => Returned (b :: bs)
  | Threw e, _ => Threw e
  | Returned _, Threw e => Threw e
  end.

Fixpoint promiseAll {A B} (f : A -> M B) (l : list A) : M (list B) :=
  fun w =>
    match l with
    | [] => (Returned [], w)
    | a :: l' =>
        let '(r, w1) := f a w in
        let '(rs, w2) := promiseAll f l' w1 in
        (joinOutcome r rs, w2)
    end.

(** A loop that awaits in its body: [for (const x of l) { s = await f(s, x) }]. *)
Fixpoint foldM {A S} (f : S -> A -> M S) (s : S) (l : list A) : M S :=
  match l with
  | [] => ret s
  | a :: l' => s' ← f s a; foldM f s' l'
  end.

(** ** Rate limiting *)

Definition RATE_LIMIT : Z := 20.
Definition RATE_LIMIT_WINDOW : Z := 1000.

(** [Math.ceil(a / b)] for integers [a] and positive [b]. *)
Definition ceilDiv (a b : Z) : Z := - ((- a) / b).

Definition rateLimitMessage (waitTime : Z) : string :=
  "Rate limit exceeded. Please wait " +:+ pretty (ceilDiv waitTime 1000) +:+ " seconds.".

Definition checkRateLimit : M unit :=
  now ← Date_now;
  last ← getLastResetTime;
  (if now - last >=? RATE_LIMIT_WINDOW
   then setRate 0 now
   else ret tt);;
  count ← getRequestCount;
  last' ← getLastResetTime;
  if count >=? RATE_LIMIT
  then
    let waitTime := RATE_LIMIT_WINDOW - (now - last') in
    throw (Error (rateLimitMessage waitTime))
  else setRate (count + 1) last'.

(** ** Endpoints *)

Record Config : Type := {
  PROXY_URL : string;
  QUICKNODE_RPC_URL : string;
  ALCHEMY_RPC_URL : string
}.

Section RpcClient.

Variable cfg : Config.

(** The body of the POST: [{ jsonrpc: '2.0', method, params, id: 1 }]
    sent to [rpcUrl || PROXY_URL]. *)
Definition singleRequest (method : string) (params : list jsval)
    (rpcUrl : option string) : Request :=
  {| req_url := orElse rpcUrl (PROXY_URL cfg);
     req_body := SinglePayload
       {| req_call := {| rpc_method := method; rpc_params := params |};
          req_id := 1 |} |}.

(** What [getBlockVisionData] makes of the reply once [fetch] settled. *)
Definition settle {R} (response : HttpReply (BlockVisionResponse R))
  : outcome (option R) :=
  match response with
  | FetchRejected e => Threw e
  | HttpNotOk status => Threw (Error ("HTTP error! status: " +:+ pretty status))
  | JsonRejected e => Threw e
  | JsonBody data =>
      match res_error data with
      | Some err => Threw (Error ("RPC Error: " +:+ message err))
      | None => Returned (res_result data)
      end
  end.

(** [getBlockVisionData(method, params, signal, rpcUrl)]; the [catch]
    block logs and rethrows, so it is the identity here. *)
Definition getBlockVisionData {R}
    (provider : Request -> HttpReply (BlockVisionResponse R))
    (method : string) (params : list jsval) (rpcUrl : option string)
  : M (option R) :=
  let url := orElse rpcUrl (PROXY_URL cfg) in
  (if includes url "quiknode" then checkRateLimit else ret tt);;
  response ← fetch provider (singleRequest method params rpcUrl);
  lift (settle response).

(** [requests.map((req, index) => ({ ..., id: index }))] *)
Definition tagRequests (requests : list RpcCall) : list RpcRequest :=
  imap (fun index req => {| req_call := req; req_id := Z.of_nat index |}) requests.

(** [data.sort((a, b) => a.id - b.id)]: [Array.prototype.sort] is
    stable, so an element goes in front of the first one whose id is
    not smaller. *)
Fixpoint insertById {R} (x : BlockVisionResponse R)
    (l : list (BlockVisionResponse R)) : list (BlockVisionResponse R) :=
  match l with
  | [] => [x]
  | y :: l' =>
      if res_id x <=? res_id y then x :: y :: l' else y :: insertById x l'
  end.

Definition sortById {R} (data : list (BlockVisionResponse R))
  : list (BlockVisionResponse R) :=
  foldr insertById [] data.

(** The callback of the final [map]. *)
Definition subResult {R} (res : BlockVisionResponse R) : option R :=
  match res_error res with
  | Some _ => None
  | None => res_result res
  end.

(** [batchBlockVisionData(requests, rpcUrl)] *)
Definition batchBlockVisionData {R}
    (provider : Request -> HttpReply (BatchBody R))
    (requests : list RpcCall) (rpcUrl : option string)
  : M (list (option R)) :=
  let batch := tagRequests requests in
  response ← fetch provider
    {| req_url := orElse rpcUrl (PROXY_URL cfg);
       req_body := BatchPayload batch |};
  match response with
  | FetchRejected e => throw e
  | HttpNotOk status => throw (Error ("HTTP error! status: " +:+ pretty status))
  | JsonRejected e => throw e
  | JsonBody BatchNull =>
      throw (TypeError "Cannot read properties of null (reading 'error')")
  | JsonBody (BatchObject (Some err)) =>
      throw (Error ("RPC Error: " +:+ message err))
  | JsonBody (BatchObject None) =>
      throw (Error "Batch RPC call did not return an array")
  | JsonBody (BatchArray data) => ret (subResult <$> sortById data)
  end.

End RpcClient.

(* ================================================================== *)
(** * A JavaScript [Map]: insertion-ordered, keys compared by value *)
(* ================================================================== *)

Section JsMap.

Context {K V : Type} `{EqDecision K}.

Definition jsmap : Type := list (K * V).

(** [m.get(k)] *)
Fixpoint map_get (k : K) (m : jsmap) : option V :=
  match m with
  | [] => None
  | (k', v) :: m' => if decide (k' = k) then Some v else map_get k m'
  end.

(** [m.has(k)] *)
Definition map_has (k : K) (m : jsmap) : bool :=
  match map_get k m with Some _ => true | None => false end.

(** [m.set(k, v)]: an existing key keeps its place and takes the new
    value; a new key goes to the end. *)
Fixpoint map_set (k : K) (v : V) (m : jsmap) : jsmap :=
  match m with
  | [] => [(k, v)]
  | (k', v') :: m' =>
      if decide (k' = k) then (k', v) :: m' else (k', v') :: map_set k v m'
  end.

(** [Array.from(m.values())] *)
Definition map_values (m : jsmap) : list V := snd <$> m.

End JsMap.
Arguments jsmap K V : clear implicits.

Global Instance jsnum_eq_dec : EqDecision jsnum.
Proof. solve_decision. Defined.

(* ================================================================== *)
(** * Blocks, transactions, receipts *)
(* ================================================================== *)

(** [interface Transaction]; [tx_to = None] is the JSON [null] of a
    contract creation. *)
Record Transaction : Type := {
  tx_hash : string;
  tx_from : option string;
  tx_to : option string;
  tx_value : option string;
  tx_gas : option string;
  tx_status : option Z
}.

(** [transactions: string[] | Transaction[]] *)
Inductive TxList : Type :=
| Hashes (hs : list string)
| Objects (txs : list Transaction).

Definition txLength (l : TxList) : nat :=
  match l with
  | Hashes hs => length hs
  | Objects txs => length txs
  end.

(** A block as the provider sends it: quantities are hex strings. *)
Record RawBlock : Type := {
  raw_number : option string;
  raw_timestamp : option string;
  raw_transactions : option TxList;
  raw_gasUsed : option string
}.

(** A field that holds a number once normalized and a hex string while
    it is still raw. *)
Inductive field : Type :=
| FNum (n : jsnum)
| FStr (s : string)
| FUndefined.

(** [interface Block] as an in-memory object. *)
Record Block : Type := {
  number : field;
  timestamp : field;
  transactions : option TxList;
  prefetchedTransactions : option (list Transaction);
  gasUsed : option string
}.

Record Receipt : Type := {
  rc_status : option string;
  rc_gasUsed : option string
}.

Definition ofOptStr (s : option string) : field :=
  match s with Some s => FStr s | None => FUndefined end.

(** [results as Block[]]: a raw block used as it came. *)
Definition castBlock (raw : RawBlock) : Block :=
  {| number := ofOptStr (raw_number raw);
     timestamp := ofOptStr (raw_timestamp raw);
     transactions := raw_transactions raw;
     prefetchedTransactions := None;
     gasUsed := raw_gasUsed raw |}.

Definition truthyField (f : field) : bool :=
  match f with
  | FNum n => truthyNum n
  | FStr s => truthyStr (Some s)
  | FUndefined => false
  end.

(** [typeof f === 'string' ? parseInt(f, 16) : f]; a missing field stays
    [undefined], which arithmetic turns into [NaN]. *)
Definition fieldNumber (f : field) : jsnum :=
  match f with
  | FNum n => n
  | FStr s => parseInt s 16
  | FUndefined => NaN
  end.

Definition numSub (a b : jsnum) : jsnum :=
  match a, b with
  | Num x, Num y => Num (x - y)
  | _, _ => NaN
  end.

(** [a > b] on numbers: false as soon as one side is [NaN]. *)
Definition numGtb (a b : jsnum) : bool :=
  match a, b with
  | Num x, Num y => x >? y
  | _, _ => false
  end.

Definition numGeb (a b : jsnum) : bool :=
  match a, b with
  | Num x, Num y => x >=? y
  | _, _ => false
  end.

(** [n.toString(16)] *)
Definition toString16 (n : jsnum) : string :=
  match n with
  | Num z => NilZero.string_of_int (Z.to_hex_int z)
  | NaN => "NaN"
  end.

(** The provider, one oracle per kind of reply. *)
Record Provider : Type := {
  eth_blockNumber : Request -> HttpReply (BlockVisionResponse string);
  eth_getBlockByNumber : Request -> HttpReply (BlockVisionResponse RawBlock);
  eth_getTransactionReceipt : Request -> HttpReply (BlockVisionResponse Receipt);
  eth_batch : Request -> HttpReply (BatchBody RawBlock)
}.

Inductive BlockTag : Type :=
| TagNumber (n : jsnum)
| TagString (s : string).

(** One point of the gas chart: [{ time, gasUsed }]. *)
Record GasPoint : Type := {
  gp_time : string;
  gp_gasUsed : jsnum
}.

(** [0, 1, ..., n-1] as numbers: the values of a [for (let i = 0; i < n; i++)]. *)
Definition upto (n : Z) : list Z := Z.of_nat <$> seq 0 (Z.to_nat n).

(** [{ method: 'eth_getBlockByNumber', params: [tag, full] }] *)
Definition blockRequest (tag : string) (full : bool) : RpcCall :=
  {| rpc_method := "eth_getBlockByNumber"; rpc_params := [JStr tag; JBool full] |}.

(** [nums.map(num => ({ method, params: [`0x${num.toString(16)}`, full] }))] *)
Definition blockRequests (full : bool) (nums : list jsnum) : list RpcCall :=
  (fun num => blockRequest ("0x" +:+ toString16 num) full) <$> nums.

(** The numbers pushed by
    [for (i = 0; i < blocksToFetch; i++) if (latest - i > 0) push(latest - i)]. *)
Definition blockNumbersToFetch (latestBlockNumber : jsnum) (blocksToFetch : Z)
  : list jsnum :=
  filter (fun blockNumber => numGtb blockNumber (Num 0) = true)
    ((fun i => numSub latestBlockNumber (Num i)) <$> upto blocksToFetch).

Section Aggregators.

Variable cfg : Config.
Variable P : Provider.

(** [getLatestBlockNumber()] *)
Definition getLatestBlockNumber : M jsnum :=
  result ← getBlockVisionData cfg (eth_blockNumber P) "eth_blockNumber" [] None;
  lift (hexToNumber result).

(** [getBlockByNumber(blockNumber, includeTransactions, rpcUrl)] *)
Definition getBlockByNumber (blockNumber : BlockTag)
    (includeTransactions : bool) (rpcUrl : option string) : M (option Block) :=
  let blockTag :=
    match blockNumber with
    | TagNumber n => "0x" +:+ toString16 n
    | TagString s => s
    end in
  result ← getBlockVisionData cfg (eth_getBlockByNumber P) "eth_getBlockByNumber"
             [JStr blockTag; JBool includeTransactions] rpcUrl;
  match result with
  | Some raw =>
      let prefetched :=
        match raw_transactions raw with
        | Some (Objects (t :: ts)) =>
            if includeTransactions then Some (t :: ts) else None
        | _ => None
        end in
      n ← lift (hexToNumber (raw_number raw));
      t ← lift (hexToNumber (raw_timestamp raw));
      ret (Some {| number := FNum n;
                   timestamp := FNum t;
                   transactions := raw_transactions raw;
                   prefetchedTransactions := prefetched;
                   gasUsed := raw_gasUsed raw |})
  | None => ret None
  end.

(** [getTransactionReceipt(txHash, rpcUrl)] *)
Definition getTransactionReceipt (txHash : string) (rpcUrl : option string)
  : M (option Receipt) :=
  getBlockVisionData cfg (eth_getTransactionReceipt P) "eth_getTransactionReceipt"
    [JStr txHash] rpcUrl.

(** ** Gas usage history *)

(** [blocksToFetch]: [minutes * 20], or
    [Math.ceil((60 / (timeDiff / blockDiff)) * minutes)] when both
    differences are positive (the quotient taken exactly). *)
Definition blocksToFetch (minutes : Z) (latestBlock : Block)
    (olderBlock : option Block) : Z :=
  match olderBlock with
  | Some older =>
      match numSub (fieldNumber (timestamp latestBlock)) (fieldNumber (timestamp older)),
            numSub (fieldNumber (number latestBlock)) (fieldNumber (number older)) with
      | Num timeDiff, Num blockDiff =>
          if (timeDiff >? 0) && (blockDiff >? 0)
          then ceilDiv (60 * blockDiff * minutes) timeDiff
          else minutes * 20
      | _, _ => minutes * 20
      end
  | None => minutes * 20
  end.

(** The body of [blocks.forEach(block => ...)] on the minute map. *)
Definition addBlockGas (gasUsageMap : jsmap jsnum jsnum) (block : Block)
  : jsmap jsnum jsnum :=
  if negb (truthyField (timestamp block)) || negb (truthyStr (gasUsed block))
  then gasUsageMap
  else
    let blockTimestamp := fieldNumber (timestamp block) in
    let minuteKey := floorDiv60 blockTimestamp in
    let currentGas := numOrZero (default NaN (map_get minuteKey gasUsageMap)) in
    map_set minuteKey
      (numAdd currentGas (parseInt (default "" (gasUsed block)) 16))
      gasUsageMap.

(** [gasUsageMap.get(minuteKey) || 0] *)
Definition gasAt (gasUsageMap : jsmap jsnum jsnum) (minuteKey : jsnum) : jsnum :=
  numOrZero (default NaN (map_get minuteKey gasUsageMap)).

(** The label [HH:MM] depends on the host's time zone; it is a
    parameter of the model. *)
Variable timeLabel : jsnum -> string.

(** The [try] block of [getGasUsageHistory]. *)
Definition gasUsageHistoryTry (minutes : nat) : M (list GasPoint) :=
  latestBlock ← getBlockByNumber (TagString "latest") false None;
  match latestBlock with
  | None => ret []
  | Some latestBlock =>
      let latestBlockNumber := fieldNumber (number latestBlock) in
      olderBlock ← getBlockByNumber
                     (TagNumber (numSub latestBlockNumber (Num 100))) false None;
      let blockRequests :=
        blockRequests false
          (blockNumbersToFetch latestBlockNumber
             (blocksToFetch (Z.of_nat minutes) latestBlock olderBlock)) in
      results ← batchBlockVisionData cfg (eth_batch P) blockRequests None;
      let blocks := castBlock <$> omap id results in
      let gasUsageMap := foldl addBlockGas [] blocks in
      let nowTimestamp := fieldNumber (timestamp latestBlock) in
      let finalData :=
        (fun i =>
           let minuteTimestamp := numSub nowTimestamp (Num (i * 60)) in
           {| gp_time := timeLabel minuteTimestamp;
              gp_gasUsed := gasAt gasUsageMap (floorDiv60 minuteTimestamp) |})
          <$> upto (Z.of_nat minutes) in
      ret (reverse finalData)
  end.

(** [getGasUsageHistory(minutes)]: [try { ... } catch (error) { return [] }] *)
Definition getGasUsageHistory (minutes : nat) : M (list GasPoint) :=
  tryCatch (gasUsageHistoryTry minutes) (fun _ => ret []).

End Aggregators.

(* ================================================================== *)
(** * Ecosystem health *)
(* ================================================================== *)

(** [x.toFixed(2)] read back with [Number]: the nearest multiple of
    1/100, the larger magnitude on a tie. *)
Definition toFixed2 (x : Q) : Q :=
  if Qle_bool 0 x
  then (Qfloor (x * 100 + (1 # 2)) # 100)%Q
  else (- (Qfloor ((- x) * 100 + (1 # 2)) # 100))%Q.

Definition Qgtb (a b : Q) : bool := negb (Qle_bool a b).
Definition Qltb (a b : Q) : bool := negb (Qle_bool b a).

(** [(count / total) * 100] *)
Definition percentOf (count total : Z) : Q :=
  ((inject_Z count / inject_Z total) * 100)%Q.

(** [successRate > 95 && failedTxRate < 5 ? 'Healthy' : 'Needs Attention'] *)
Definition healthScoreOf (successRate failedTxRate : Q) : string :=
  if Qgtb successRate 95 && Qltb failedTxRate 5
  then "Healthy" else "Needs Attention".

(** [s.toLowerCase()] on ASCII letters. *)
Definition lowerAscii (c : ascii) : ascii :=
  let n := nat_of_ascii c in
  if ((65 <=? n) && (n <=? 90))%nat then ascii_of_nat (n + 32) else c.

Fixpoint toLowerCase (s : string) : string :=
  match s with
  | EmptyString => EmptyString
  | String c s' => String (lowerAscii c) (toLowerCase s')
  end.

(** [l.filter((x, idx) => f(x, idx))] *)
Fixpoint filterFrom {A} (f : A -> nat -> bool) (i : nat) (l : list A) : list A :=
  match l with
  | [] => []
  | a :: l' => if f a i then a :: filterFrom f (S i) l' else filterFrom f (S i) l'
  end.

Definition filterWithIndex {A} (f : A -> nat -> bool) (l : list A) : list A :=
  filterFrom f 0 l.

(** ** The fail-closed variant *)

(** The counters of the "Calculate metrics" loop. *)
Record Tally : Type := {
  txCount : Z;
  successCount : Z;
  failedCount : Z;
  walletSet : gset string;
  contractCount : Z
}.

Definition emptyTally : Tally :=
  {| txCount := 0; successCount := 0; failedCount := 0;
     walletSet := ∅; contractCount := 0 |}.

Definition addWallet (a : option string) (ws : gset string) : gset string :=
  match a with
  | Some (String c r) => {[ String c r ]} ∪ ws
  | _ => ws
  end.

(** The body of [for (const tx of block.prefetchedTransactions)]. *)
Definition tallyTx (a : Tally) (tx : Transaction) : Tally :=
  {| txCount := txCount a + 1;
     successCount :=
       if decide (tx_status tx = Some 1) then successCount a + 1 else successCount a;
     failedCount :=
       if decide (tx_status tx = Some 0) then failedCount a + 1 else failedCount a;
     walletSet := addWallet (tx_to tx) (addWallet (tx_from tx) (walletSet a));
     contractCount :=
       if truthyStr (tx_to tx) then contractCount a else contractCount a + 1 |}.

Definition tallyBlock (a : Tally) (block : Block) : Tally :=
  match prefetchedTransactions block with
  | Some txs => foldl tallyTx a txs
  | None => a
  end.

(** The returned object, without [avgBlockTime] and
    [maxGasUsagePerBlock] (two figures computed from the timestamps and
    [gasUsed] alone, which no other field reads). *)
Record HealthMetrics : Type := {
  hm_tps : Q;
  hm_successRate : Q;
  hm_activeWallets : nat;
  hm_newContracts : Z;
  hm_failedTxRate : Q;
  hm_healthScore : string;
  hm_blockCount : nat;
  hm_txCount : Z
}.

Definition secondsIn24h : Z := 10 * 60.

(** The local [successRate] and [failedTxRate] before rounding. *)
Definition successRateOf (a : Tally) : Q :=
  if txCount a >? 0 then percentOf (successCount a) (txCount a) else 100%Q.

Definition failedTxRateOf (a : Tally) : Q :=
  if txCount a >? 0 then percentOf (failedCount a) (txCount a) else 0%Q.

(** From "Calculate metrics" to the [return]. *)
Definition calculateMetrics (blocks : list Block) : HealthMetrics :=
  let a := foldl tallyBlock emptyTally blocks in
  let tps := (inject_Z (txCount a) / inject_Z secondsIn24h)%Q in
  let successRate := successRateOf a in
  let failedTxRate := failedTxRateOf a in
  {| hm_tps := toFixed2 tps;
     hm_successRate := toFixed2 successRate;
     hm_activeWallets := size (walletSet a);
     hm_newContracts := contractCount a;
     hm_failedTxRate := toFixed2 failedTxRate;
     hm_healthScore := healthScoreOf successRate failedTxRate;
     hm_blockCount := length blocks;
     hm_txCount := txCount a |}.

(** A number that may also be [NaN] or [+Infinity]. *)
Inductive extnum : Type :=
| XNaN
| XInf
| XNum (z : Z).

(** [Math.ceil(secondsIn24h / avgBlockTime)]; [avgBlockTime = None] is
    [NaN]. *)
Definition estBlockCount (avgBlockTime : option Q) : extnum :=
  match avgBlockTime with
  | None => XNaN
  | Some q =>
      if Qeq_bool q 0 then XInf
      else XNum (Qceiling (inject_Z secondsIn24h / q))
  end.

(** [Math.max(0, latestBlock.number - estBlockCount)] *)
Definition startBlockNumberOf (latestNumber : jsnum) (est : extnum) : jsnum :=
  match latestNumber, est with
  | Num n, XNum e => Num (Z.max 0 (n - e))
  | Num n, XInf => Num 0
  | _, _ => NaN
  end.

(** How many times [while (blockNum >= startBlockNumber)] can test true
    when [blockNum] counts down from [latestNumber]. *)
Definition maxIterations (latestNumber startBlockNumber : jsnum) : nat :=
  match latestNumber, startBlockNumber with
  | Num n, Num s => Z.to_nat (n - s + 1)
  | _, _ => 0%nat
  end.

(** ** The fail-open variant: data *)

(** The returned object, without [tps] and [avgBlockTime] (quotients of
    the raw timestamps) and [maxGasUsagePerBlock]. *)
Record RecentHealthMetrics : Type := {
  rh_successRate : Q;
  rh_activeWallets : nat;
  rh_newContracts : Z;
  rh_failedTxRate : Q;
  rh_healthScore : string;
  rh_healthScoreCount : Z;
  rh_blockCount : nat;
  rh_totalTxCount : Z;
  rh_successCount : Z;
  rh_failedCount : Z;
  rh_partial : bool;
  rh_failedBlocks : list jsnum
}.

(** The hashes pushed to [allTxHashes] for one block. *)
Definition blockTxHashes (block : Block) : list string :=
  match transactions block with
  | Some (Hashes hs) => hs
  | Some (Objects txs) => tx_hash <$> txs
  | None => []
  end.

(** [txObjs]: the prefetched objects if there are any, else the
    transactions when they are objects. *)
Definition txObjs (block : Block) : list Transaction :=
  match prefetchedTransactions block with
  | Some (t :: ts) => t :: ts
  | _ =>
      match transactions block with
      | Some (Objects txs) => txs
      | _ => []
      end
  end.

Definition tallyWallets (acc : gset string * Z) (tx : Transaction) : gset string * Z :=
  (addWallet (toLowerCase <$> tx_to tx)
     (addWallet (toLowerCase <$> tx_from tx) acc.1),
   if truthyStr (tx_to tx) then acc.2 else acc.2 + 1).

Inductive ReceiptVerdict : Type := VSuccess | VFail | VNull.

Global Instance ReceiptVerdict_eq_dec : EqDecision ReceiptVerdict.
Proof. solve_decision. Defined.

Definition countVerdict (v : ReceiptVerdict) (l : list ReceiptVerdict) : Z :=
  Z.of_nat (length (filter (fun x => x = v) l)).

(** [blockNumbers.filter((num, idx) => !blocks[idx])], where [blocks]
    is the batch result after [filter(Boolean)]. *)
Definition failedBlocksOf (blockNumbers : list jsnum) (blocks : list Block)
  : list jsnum :=
  filterWithIndex (fun num idx => negb (bool_decide (is_Some (blocks !! idx))))
    blockNumbers.

(** [totalTxCount]: the lengths of the [transactions] arrays. *)
Definition totalTxCountOf (blocks : list Block) : Z :=
  foldl (fun n block =>
           match transactions block with
           | Some l => n + Z.of_nat (txLength l)
           | None => n
           end) 0 blocks.

(** The local [successRate] and [failedTxRate] of the fail-open variant. *)
Definition recentRateOf (count totalTxCount : Z) : Q :=
  if totalTxCount >? 0 then percentOf count totalTxCount else 0%Q.

(** From "Calculate rates" to the [return] of the fail-open variant. *)
Definition recentMetrics (blocks : list Block) (failedBlocks : list jsnum)
    (receiptResults : list ReceiptVerdict) : RecentHealthMetrics :=
  let totalTxCount := totalTxCountOf blocks in
  let wallets := foldl tallyWallets (∅, 0) (mjoin (txObjs <$> blocks)) in
  let successCount := countVerdict VSuccess receiptResults in
  let failedCount := countVerdict VFail receiptResults in
  let successRate := recentRateOf successCount totalTxCount in
  let failedTxRate := recentRateOf failedCount totalTxCount in
  {| rh_successRate := toFixed2 successRate;
     rh_activeWallets := size wallets.1;
     rh_newContracts := wallets.2;
     rh_failedTxRate := toFixed2 failedTxRate;
     rh_healthScore := healthScoreOf successRate failedTxRate;
     rh_healthScoreCount := 14;
     rh_blockCount := length blocks;
     rh_totalTxCount := totalTxCount;
     rh_successCount := successCount;
     rh_failedCount := failedCount;
     rh_partial := bool_decide (0 < length failedBlocks)%nat;
     rh_failedBlocks := failedBlocks |}.

Section Health.

Variable cfg : Config.
Variable P : Provider.

(** The [while] loop that walks back from the latest block. *)
Fixpoint collectBlocks (iterations : nat) (blockNum : Z) (startTimestamp : jsnum)
    (blocks : list Block) : M (list Block) :=
  match iterations with
  | O => ret blocks
  | S iterations' =>
      block ← getBlockByNumber cfg P (TagNumber (Num blockNum)) true None;
      match block with
      | Some b =>
          if numGeb (fieldNumber (timestamp b)) startTimestamp
          then collectBlocks iterations' (blockNum - 1) startTimestamp (blocks ++ [b])
          else ret blocks
      | None => ret blocks
      end
  end.

(** [getEcosystemHealthMetrics()] *)
Definition getEcosystemHealthMetrics : M HealthMetrics :=
  latestBlock ← getBlockByNumber cfg P (TagString "latest") false None;
  match latestBlock with
  | None => throw (Error "Could not fetch latest block")
  | Some latestBlock =>
      let latestTimestamp := fieldNumber (timestamp latestBlock) in
      let latestNumber := fieldNumber (number latestBlock) in
      let startTimestamp := numSub latestTimestamp (Num secondsIn24h) in
      avgBlockTime ←
        (if numGtb latestNumber (Num 100)
         then
           hundredBlocksAgo ← getBlockByNumber cfg P
                                (TagNumber (numSub latestNumber (Num 100))) false None;
           match hundredBlocksAgo with
           | Some older =>
               match numSub latestTimestamp (fieldNumber (timestamp older)) with
               | Num d => ret (Some (d # 100)%Q)
               | NaN => ret None
               end
           | None => ret (Some 1%Q)
           end
         else ret (Some 1%Q));
      let startBlockNumber := startBlockNumberOf latestNumber (estBlockCount avgBlockTime) in
      blocks ← collectBlocks (maxIterations latestNumber startBlockNumber)
                 (match latestNumber with Num n => n | NaN => 0 end)
                 startTimestamp [];
      ret (calculateMetrics blocks)
  end.

(** ** The fail-open variant *)

(** The callback of [allTxHashes.map(async (hash) => ...)]. *)
Definition receiptVerdict (rpcUrl : string) (hash : string) : M ReceiptVerdict :=
  tryCatch
    (receipt ← getTransactionReceipt cfg P hash (Some rpcUrl);
     match receipt with
     | Some r =>
         match rc_status r with
         | Some st =>
             if jsnum_eqb (parseInt st 16) (Num 1) then ret VSuccess
             else if jsnum_eqb (parseInt st 16) (Num 0) then ret VFail
             else ret VNull
         | None => ret VNull
         end
     | None => ret VNull
     end)
    (fun _ => ret VNull).

(** [getRecentEcosystemHealthMetrics(blockCount)]; [None] is the
    [null] returned when no block came back. *)
Definition getRecentEcosystemHealthMetrics (blockCount : nat)
  : M (option RecentHealthMetrics) :=
  let rpcUrl := QUICKNODE_RPC_URL cfg in
  latestHex ← getBlockVisionData cfg (eth_blockNumber P) "eth_blockNumber" []
                (Some rpcUrl);
  latestBlockNumber ← lift (hexToNumber latestHex);
  let blockNumbers :=
    (fun i => numSub latestBlockNumber (Num i)) <$> upto (Z.of_nat blockCount) in
  let blockRequests := blockRequests true blockNumbers in
  results ← batchBlockVisionData cfg (eth_batch P) blockRequests (Some rpcUrl);
  let blocks := castBlock <$> omap id results in
  let failedBlocks := failedBlocksOf blockNumbers blocks in
  match blocks with
  | [] => ret None
  | _ =>
      let allTxHashes := mjoin (blockTxHashes <$> blocks) in
      receiptResults ←
        (match allTxHashes with
         | [] => ret []
         | _ => promiseAll (receiptVerdict rpcUrl) allTxHashes
         end);
      ret (Some (recentMetrics blocks failedBlocks receiptResults))
  end.

End Health.

(* ================================================================== *)
(** * Events *)
(* ================================================================== *)

Inductive EventType : Type :=
| ContractCreation
| HighGasUsage
| FailedTransaction
| NetworkUpdate
| LargeTransfer
| ContractInteraction
| DebugTransaction.

Inductive EventStatus : Type := StSuccess | StWarning | StError | StInfo.

(** [interface Event], without the free-text [details] and the
    formatted [value]. [ev_time] stands for the ISO string of the block
    time: it is the time in seconds. *)
Record Event : Type := {
  ev_id : string;
  ev_type : EventType;
  ev_time : Z;
  ev_address : string;
  ev_status : EventStatus;
  ev_blockNumber : field;
  ev_transactionHash : string;
  ev_gasUsed : option string
}.

(** [new Date(timestamp * 1000).toISOString()]: a [RangeError] outside
    the range of [Date]. *)
Definition toISOString (ts : jsnum) : outcome Z :=
  match ts with
  | Num z =>
      if Z.abs (z * 1000) <=? 8640000000000000 then Returned z
      else Threw (RangeError "Invalid time value")
  | NaN => Threw (RangeError "Invalid time value")
  end.

(** [`event-${eventId}`] *)
Definition eventIdString (eventId : Z) : string := "event-" +:+ pretty eventId.

(** [tx.to === null || tx.to === '0x'] *)
Definition isCreation (tx : Transaction) : bool :=
  match tx_to tx with
  | None => true
  | Some s => String.eqb s "0x"
  end.

(** [Number(formatEth(value)) > 1], in exact arithmetic: more than one
    unit of 10^18 wei. *)
Definition valueInEthGt1 (wei : Z) : bool := wei >? 10 ^ 18.

(** [events.sort((a, b) => new Date(b.time) - new Date(a.time))]:
    newest first, stable. *)
Fixpoint insertByTime (x : Event) (l : list Event) : list Event :=
  match l with
  | [] => [x]
  | y :: l' => if ev_time y <=? ev_time x then x :: y :: l' else y :: insertByTime x l'
  end.

Definition sortByTime (events : list Event) : list Event :=
  foldr insertByTime [] events.

Definition numLeb (a b : jsnum) : bool :=
  match a, b with
  | Num x, Num y => x <=? y
  | _, _ => false
  end.

(** The length of [Array.from({ length: n }, ...)]: [NaN] gives the
    empty array. *)
Definition arrayLength (n : jsnum) : Z :=
  match n with
  | Num n => n
  | NaN => 0
  end.

Section Events.

Variable cfg : Config.
Variable P : Provider.

(** The body of [for (const tx of txs)], on the pair of the [events]
    array and the [eventId] counter. An id is taken (and the counter
    moved) before the other fields of the pushed object are computed. *)
Definition scanTx (block : Block) (st : list Event * Z) (tx : Transaction)
  : M (list Event * Z) :=
  let blockTime := toISOString (fieldNumber (timestamp block)) in
  let mk id ty time address status gas :=
    {| ev_id := eventIdString id; ev_type := ty; ev_time := time;
       ev_address := address; ev_status := status;
       ev_blockNumber := number block; ev_transactionHash := tx_hash tx;
       ev_gasUsed := gas |} in
  let toOrUnknown := orElse (tx_to tx) "Unknown" in
  (* Contract creations *)
  st1 ← (if isCreation tx
         then
           time ← lift blockTime;
           _ ← lift (hexToBigInt (tx_value tx));
           ret (st.1 ++ [mk st.2 ContractCreation time (tx_hash tx) StSuccess (tx_gas tx)],
                st.2 + 1)
         else ret st);
  (* Failed transactions: whatever is thrown inside is swallowed *)
  receipt ← tryCatch (r ← getTransactionReceipt cfg P (tx_hash tx) None; ret (Some r))
                     (fun _ => ret None);
  st2 ← (match receipt with
         | Some (Some r) =>
             match hexToNumber (rc_status r) with
             | Returned (Num 0) =>
                 match blockTime with
                 | Returned time =>
                     ret (st1.1 ++ [mk st1.2 FailedTransaction time toOrUnknown StError
                                      (rc_gasUsed r)],
                          st1.2 + 1)
                 | Threw _ => ret (st1.1, st1.2 + 1)
                 end
             | _ => ret st1
             end
         | _ => ret st1
         end);
  (* Large transfers *)
  wei ← lift (hexToBigInt (tx_value tx));
  st3 ← (if valueInEthGt1 wei
         then
           time ← lift blockTime;
           ret (st2.1 ++ [mk st2.2 LargeTransfer time toOrUnknown StInfo None],
                st2.2 + 1)
         else ret st2);
  (* High gas usage *)
  gas ← lift (hexToNumber (tx_gas tx));
  if numGtb gas (Num 500000)
  then
    time ← lift blockTime;
    ret (st3.1 ++ [mk st3.2 HighGasUsage time toOrUnknown StWarning (tx_gas tx)],
         st3.2 + 1)
  else ret st3.

(** The body of [for (const block of blocks)]. *)
Definition scanBlock (st : list Event * Z) (block : option Block)
  : M (list Event * Z) :=
  match block with
  | Some b =>
      match prefetchedTransactions b with
      | Some txs => foldM (scanTx b) st (take 3 txs)
      | None => ret st
      end
  | None => ret st
  end.

(** The two nested loops, which [getRecentEvents] and
    [getNewEventsSince] spell out identically, from [eventId = seed]. *)
Definition scanEvents (seed : Z) (blocks : list (option Block))
  : M (list Event * Z) :=
  foldM scanBlock ([], seed) blocks.


(** [getNewEventsSince(lastBlockNumber)] *)
Definition getNewEventsSince (lastBlockNumber : jsnum) : M (list Event) :=
  tryCatch
    (latestBlock ← getLatestBlockNumber cfg P;
     if numLeb latestBlock lastBlockNumber then ret []
     else
       let fromBlock := numAdd lastBlockNumber (Num 1) in
       let toBlock := latestBlock in
       blocks ← promiseAll
                  (fun i => getBlockByNumber cfg P
                              (TagNumber (numAdd fromBlock (Num i))) true None)
                  (upto (arrayLength (numAdd (numSub toBlock fromBlock) (Num 1))));
       eventId ← Date_now;
       st ← scanEvents eventId blocks;
       ret (sortByTime st.1))
    (fun _ => ret []).

End Events.

(* ================================================================== *)
(** * Polling shell: merging fetched results into panel state *)
(* ================================================================== *)

(** [l.findIndex(f)]: [-1] when nothing matches. *)
Fixpoint findIndexFrom {A} (f : A -> bool) (i : Z) (l : list A) : Z :=
  match l with
  | [] => -1
  | a :: l' => if f a then i else findIndexFrom f (i + 1) l'
  end.

Definition findIndex {A} (f : A -> bool) (l : list A) : Z := findIndexFrom f 0 l.

(** The updater that [checkForNewEvents] hands to [setEvents]. *)
Definition mergeEvents (newEvents prevEvents : list Event) : list Event :=
  let combined := newEvents ++ prevEvents in
  let uniqueEvents :=
    filterWithIndex
      (fun event index =>
         Z.of_nat index =? findIndex (fun e => String.eqb (ev_id e) (ev_id event)) combined)
      combined in
  take 20 uniqueEvents.

(** The state of the events panel. *)
Record EventsLog : Type := {
  events : list Event;
  lastBlockNumber : jsnum;
  visibleCount : Z
}.

Section Panels.

Variable cfg : Config.
Variable P : Provider.

(** [checkForNewEvents()]: [setEvents] has run by the time
    [getLatestBlockNumber] is awaited. *)
Definition checkForNewEvents (st : EventsLog) : M EventsLog :=
  tryCatch
    (newEvents ← getNewEventsSince cfg P (lastBlockNumber st);
     match newEvents with
     | [] => ret st
     | _ =>
         let st' := {| events := mergeEvents newEvents (events st);
                       lastBlockNumber := lastBlockNumber st;
                       visibleCount := visibleCount st |} in
         tryCatch
           (latestBlock ← getLatestBlockNumber cfg P;
            ret {| events := events st';
                   lastBlockNumber := latestBlock;
                   visibleCount := 5 |})
           (fun _ => ret st')
     end)
    (fun _ => ret st).

End Panels.

(** One row of the high-gas table. *)
Record HighGasTx : Type := {
  hg_hash : string;
  hg_from : option string;
  hg_to : option string;
  hg_gasUsed : string;
  hg_timestamp : field
}.

(** The updater that [fetchOverview] hands to [setPersistedHighGasTxs]. *)
Definition mergeHighGasTxs (highGasTxs prev : list HighGasTx) : list HighGasTx :=
  let txMap : jsmap string HighGasTx :=
    foldl (fun m tx => map_set (hg_hash tx) tx m) [] highGasTxs in
  let txMap :=
    foldl (fun m tx => if map_has (hg_hash tx) m then m else map_set (hg_hash tx) tx m)
      txMap prev in
  take 12 (map_values txMap).

(* ================================================================== *)
(** * Vocabulary of the statements *)
(* ================================================================== *)

(** The time of a block in seconds, when it has one. *)
Definition blockSeconds (b : Block) : option Z :=
  if truthyField (timestamp b)
  then match fieldNumber (timestamp b) with Num t => Some t | NaN => None end
  else None.

(** The gas a block used, when it says so. *)
Definition blockGasUsed (b : Block) : option Z :=
  match gasUsed b with
  | Some s =>
      if truthyStr (Some s)
      then match parseInt s 16 with Num g => Some g | NaN => None end
      else None
  | None => None
  end.

(** What a block adds to a minute: its gas if its timestamp falls in
    that minute, nothing otherwise. *)
Definition gasShare (minute : Z) (b : Block) : Z :=
  match blockSeconds b with
  | Some t => if t / 60 =? minute then default 0 (blockGasUsed b) else 0
  | None => 0
  end.

(** The sum of [gasUsed] over the blocks whose timestamp falls in the
    minute. *)
Definition gasInMinute (blocks : list Block) (minute : Z) : Z :=
  foldr Z.add 0 (gasShare minute <$> blocks).

(** The transactions the fail-closed variant scans in a window. *)
Definition windowTxs (blocks : list Block) : list Transaction :=
  mjoin ((fun b => default [] (prefetchedTransactions b)) <$> blocks).

(** How many transactions have the given status. *)
Definition countStatus (status : Z) (txs : list Transaction) : Z :=
  Z.of_nat (length (filter (fun tx => tx_status tx = Some status) txs)).

(** A block whose timestamp and gas, when present, are hex quantities. *)
Definition wellFormedBlock (b : Block) : Prop :=
  (truthyField (timestamp b) = true -> exists t, fieldNumber (timestamp b) = Num t) /\
  (truthyStr (gasUsed b) = true ->
   exists g, parseInt (default "" (gasUsed b)) 16 = Num g).

(** The entries of [l], in order, whose key is neither in [seen] nor
    carried by an earlier entry of [l]. *)
Fixpoint keepFresh {A K : Type} `{EqDecision K} (key : A -> K)
    (seen : list K) (l : list A) : list A :=
  match l with
  | [] => []
  | x :: l' =>
      if bool_decide (key x ∈ seen) then keepFresh key seen l'
      else x :: keepFresh key (seen ++ [key x]) l'
  end.

(** No key of [l] is in [seen] and none occurs twice. *)
Definition fresh {A K : Type} (key : A -> K) (seen : list K) (l : list A) : Prop :=
  NoDup (key <$> l) /\ forall x, x ∈ l -> key x ∉ seen.

(** Every entry of the map is filed under its own key. *)
Definition consistent {A K : Type} (key : A -> K) (m : jsmap K A) : Prop :=
  forall k v, (k, v) ∈ m -> key v = k.

(** ** The event scan with the counter factored out *)









Section Plan.

Variable cfg : Config.
Variable P : Provider.




End Plan.

(* ================================================================== *)
(** * Sample inputs *)
(* ================================================================== *)

Definition sampleConfig : Config :=
  {| PROXY_URL := "https://testnet-rpc.monad.xyz";
     QUICKNODE_RPC_URL := "https://sample.monad-testnet.quiknode.pro/";
     ALCHEMY_RPC_URL := "https://monad-testnet.g.alchemy.com/v2/" |}.

(** Counters at zero, and a clock that starts at 5000 ms and advances
    by one millisecond per reading. *)
Definition sampleWorld : World :=
  {| requestCount := 0; lastResetTime := 0;
     clock := fun n => 5000 + Z.of_nat n; ticks := 0; sent := [] |}.

Definition sampleRequests : list RpcCall :=
  [blockRequest "0x64" false; blockRequest "0x63" false; blockRequest "0x62" false].

Definition rawBlock (num ts gas : string) (txs : TxList) : RawBlock :=
  {| raw_number := Some num; raw_timestamp := Some ts;
     raw_transactions := Some txs; raw_gasUsed := Some gas |}.

Definition okResponse {R} (id : Z) (r : R) : BlockVisionResponse R :=
  {| res_id := id; res_result := Some r; res_error := None |}.

Definition errResponse {R} (id : Z) (msg : string) : BlockVisionResponse R :=
  {| res_id := id; res_result := None; res_error := Some {| message := msg |} |}.

(** All three sub-responses, in reverse order, the middle one failing. *)
Definition reversedData : list (BlockVisionResponse RawBlock) :=
  [okResponse 2 (rawBlock "0x62" "0x12b" "0x5208" (Hashes []));
   errResponse 1 "limit exceeded";
   okResponse 0 (rawBlock "0x64" "0x12d" "0x5208" (Hashes []))].

(** The sub-response with id 1 is missing. *)
Definition sparseData : list (BlockVisionResponse RawBlock) :=
  [okResponse 2 (rawBlock "0x62" "0x12b" "0x5208" (Hashes []));
   okResponse 0 (rawBlock "0x64" "0x12d" "0x5208" (Hashes []))].

Definition blockNumberReply (hex : string)
  : Request -> HttpReply (BlockVisionResponse string) :=
  fun _ => JsonBody (okResponse 1 hex).

Definition sampleReceipt (status : string) : Receipt :=
  {| rc_status := Some status; rc_gasUsed := Some "0x5208" |}.

(** A provider whose latest block is number 100 at second 301, which
    answers every batch with [reversedData] and every receipt request
    with a successful receipt. *)
Definition sampleProvider : Provider :=
  {| eth_blockNumber := blockNumberReply "0x64";
     eth_getBlockByNumber :=
       fun _ => JsonBody (okResponse 1 (rawBlock "0x64" "0x12d" "0x5208" (Hashes [])));
     eth_getTransactionReceipt := fun _ => JsonBody (okResponse 1 (sampleReceipt "0x1"));
     eth_batch := fun _ => JsonBody (BatchArray reversedData) |}.

Definition pad2 (z : Z) : string :=
  if z <? 10 then "0" +:+ pretty z else pretty z.

(** [HH:MM] for a host whose time zone is UTC. *)
Definition utcLabel (n : jsnum) : string :=
  match n with
  | Num z => pad2 ((z / 3600) mod 24) +:+ ":" +:+ pad2 ((z / 60) mod 60)
  | NaN => "NaN:NaN"
  end.

(** A provider that fails the first of three batched block requests
    (block 100) and answers the other two (blocks 99 and 98). *)
Definition firstFailsData : list (BlockVisionResponse RawBlock) :=
  [errResponse 0 "limit exceeded";
   okResponse 1 (rawBlock "0x63" "0x12c" "0x5208" (Hashes []));
   okResponse 2 (rawBlock "0x62" "0x12b" "0x5208" (Hashes []))].

Definition firstFailsProvider : Provider :=
  {| eth_blockNumber := blockNumberReply "0x64";
     eth_getBlockByNumber :=
       fun _ => JsonBody (okResponse 1 (rawBlock "0x64" "0x12d" "0x5208" (Hashes [])));
     eth_getTransactionReceipt := fun _ => JsonBody (okResponse 1 (sampleReceipt "0x1"));
     eth_batch := fun _ => JsonBody (BatchArray firstFailsData) |}.

Definition sampleTx (hash : string) (status : Z) : Transaction :=
  {| tx_hash := hash; tx_from := Some "0xaa"; tx_to := Some "0xbb";
     tx_value := Some "0x0"; tx_gas := Some "0x5208"; tx_status := Some status |}.

Definition sampleBlock (txs : list Transaction) : Block :=
  {| number := FNum (Num 100); timestamp := FNum (Num 301);
     transactions := Some (Objects txs); prefetchedTransactions := Some txs;
     gasUsed := Some "0x5208" |}.

(** Two blocks, three transactions, all succeeded. *)
Definition healthyWindow : list Block :=
  [sampleBlock [sampleTx "0x01" 1; sampleTx "0x02" 1]; sampleBlock [sampleTx "0x03" 1]].

(** Ten transactions, one of them reverted. *)
Definition revertingWindow : list Block :=
  [sampleBlock (sampleTx "0x00" 0 :: replicate 9 (sampleTx "0x01" 1))].









(* ================================================================== *)
(** * Theorems *)
(* ================================================================== *)

Example parseInt_5208 : parseInt "0x5208" 16 = Num 21000.
Proof. reflexivity. Qed.

Example parseInt_bare_prefix : parseInt "0x" 16 = NaN.
Proof. reflexivity. Qed.

Example BigInt_leading_zero : BigInt "0x0de0b6b3a7640000" = Returned 1000000000000000000.
Proof. reflexivity. Qed.

Example BigInt_bare_prefix :
  BigInt "0x" = Threw (SyntaxError "Cannot convert 0x to a BigInt").
Proof. reflexivity. Qed.

(* ------------------------------------------------------------------ *)
(** ** Normalizer *)
(* ------------------------------------------------------------------ *)











(* ------------------------------------------------------------------ *)
(** ** Rate limiting *)
(* ------------------------------------------------------------------ *)







(* ------------------------------------------------------------------ *)
(** ** Batch calls *)
(* ------------------------------------------------------------------ *)

Section BatchFacts.

Context {R : Type}.
Implicit Types (x res : BlockVisionResponse R) (data l : list (BlockVisionResponse R)).

Lemma insertById_perm x l : insertById x l ≡ₚ x :: l.
Proof.
  induction l as [|y l IH]; cbn; [done|].
  destruct (res_id x <=? res_id y); [done|].
  rewrite IH. apply Permutation_swap.
Qed.

Lemma sortById_perm data : sortById data ≡ₚ data.
Proof.
  induction data as [|x data IH]; cbn; [done|].
  rewrite insertById_perm. by rewrite IH.
Qed.

Lemma sortById_length data : length (sortById data) = length data.
Proof. by rewrite sortById_perm. Qed.

Lemma insertById_sorted x l :
  StronglySorted Z.le (res_id <$> l) ->
  StronglySorted Z.le (res_id <$> insertById x l).
Proof.
  induction l as [|y l IH]; cbn.
  - intros _. repeat constructor.
  - intros [Hl Hy]%StronglySorted_inv.
    destruct (Z.leb_spec (res_id x) (res_id y)) as [Hxy|Hxy]; cbn.
    + constructor; [by constructor|].
      constructor; [done|]. eapply Forall_impl; [exact Hy|]. cbn. intros; lia.
    + constructor; [by apply IH|].
      rewrite insertById_perm. cbn. constructor; [lia|done].
Qed.

Lemma sortById_sorted data : StronglySorted Z.le (res_id <$> sortById data).
Proof.
  induction data as [|x data IH]; cbn; [constructor|].
  by apply insertById_sorted.
Qed.

End BatchFacts.

Lemma seq_sorted (a n : nat) : StronglySorted Z.le (Z.of_nat <$> seq a n).
Proof.
  revert a. induction n as [|n IH]; intros a; cbn; constructor; [apply IH|].
  apply Forall_fmap, Forall_forall. intros k Hk%elem_of_seq. cbn. lia.
Qed.

Lemma batchBlockVisionData_array cfg {R}
    (provider : Request -> HttpReply (BatchBody R))
    (requests : list RpcCall) (rpcUrl : option string)
    (data : list (BlockVisionResponse R)) (w : World) :
  provider {| req_url := orElse rpcUrl (PROXY_URL cfg);
              req_body := BatchPayload (tagRequests requests) |}
    = JsonBody (BatchArray data) ->
  batchBlockVisionData cfg provider requests rpcUrl w =
    (Returned (subResult <$> sortById data),
     {| requestCount := requestCount w; lastResetTime := lastResetTime w;
        clock := clock w; ticks := ticks w;
        sent := sent w ++ [{| req_url := orElse rpcUrl (PROXY_URL cfg);
                              req_body := BatchPayload (tagRequests requests) |}] |}).
Proof.
  intros Hp. unfold batchBlockVisionData, mbind, M_bind, bind, fetch.
  rewrite Hp. reflexivity.
Qed.

(** C1: when the provider answers a batch of N requests with all N
    sub-responses, in any order, [batchBlockVisionData] returns N
    entries; request [i] was tagged with id [i], and entry [i] is made
    from the sub-response whose id is [i]: [null] if it carries an
    error, its result otherwise. *)
Theorem batch_results_follow_requests cfg {R}
    (provider : Request -> HttpReply (BatchBody R))
    (requests : list RpcCall) (rpcUrl : option string)
    (data : list (BlockVisionResponse R)) (w : World) :
  provider {| req_url := orElse rpcUrl (PROXY_URL cfg);
              req_body := BatchPayload (tagRequests requests) |}
    = JsonBody (BatchArray data) ->
  res_id <$> data ≡ₚ Z.of_nat <$> seq 0 (length requests) ->
  exists results w',
    batchBlockVisionData cfg provider requests rpcUrl w = (Returned results, w') /\
    length results = length requests /\
    forall (i : nat) (req : RpcCall),
      requests !! i = Some req ->
      tagRequests requests !! i = Some {| req_call := req; req_id := Z.of_nat i |} /\
      exists res,
        res ∈ data /\ res_id res = Z.of_nat i /\
        results !! i = Some (match res_error res with
                             | Some _ => None
                             | None => res_result res
                             end).
Proof.
  intros Hp Hids. eexists _, _. split; [by apply batchBlockVisionData_array|].
  assert (res_id <$> sortById data = Z.of_nat <$> seq 0 (length requests)) as Hsorted.
  { apply (StronglySorted_unique Z.le).
    - apply sortById_sorted.
    - apply seq_sorted.
    - by rewrite sortById_perm. }
  split.
  - rewrite length_fmap, sortById_length.
    by rewrite <- (length_fmap res_id), Hids, length_fmap, length_seq.
  - intros i req Hi. split.
    { unfold tagRequests. by rewrite list_lookup_imap, Hi. }
    assert (i < length requests)%nat as Hlt by (by eapply lookup_lt_Some).
    assert ((res_id <$> sortById data) !! i = Some (Z.of_nat i)) as Hi'.
    { rewrite Hsorted, list_lookup_fmap, lookup_seq_lt by done. done. }
    rewrite list_lookup_fmap in Hi'.
    destruct (sortById data !! i) as [res|] eqn:Hres; [|done].
    exists res. split; [|split].
    + rewrite <- (sortById_perm data). by eapply list_elem_of_lookup_2.
    + by injection Hi'.
    + by rewrite list_lookup_fmap, Hres.
Qed.

Lemma sorted_le_nodup_lt (l : list Z) :
  StronglySorted Z.le l -> NoDup l -> StronglySorted Z.lt l.
Proof.
  induction l as [|x l IH]; [constructor|].
  intros [Hl Hx]%StronglySorted_inv [Hnx Hnd]%NoDup_cons.
  constructor; [by apply IH|].
  rewrite Forall_forall in Hx |- *. intros y Hy.
  pose proof (Hx y Hy). assert (x <> y) by (intros ->; done). lia.
Qed.

Lemma increasing_lookup_ge (l : list Z) (lo : Z) (j : nat) (x : Z) :
  StronglySorted Z.lt l -> Forall (Z.le lo) l ->
  l !! j = Some x -> lo + Z.of_nat j <= x.
Proof.
  revert lo j. induction l as [|a l IH]; intros lo j; [done|].
  intros [Hl Ha]%StronglySorted_inv [Hlo _]%Forall_cons.
  destruct j as [|j]; cbn.
  - intros [= ->]. lia.
  - intros Hj. specialize (IH (a + 1) j Hl).
    assert (a + 1 + Z.of_nat j <= x); [|lia].
    apply IH; [|done]. eapply Forall_impl; [exact Ha|]. cbn. intros; lia.
Qed.

Lemma increasing_lookup_gap (l : list Z) (lo k : Z) (j : nat) (x : Z) :
  StronglySorted Z.lt l -> Forall (Z.le lo) l ->
  lo <= k -> k ∉ l -> l !! j = Some x -> k < x ->
  lo + Z.of_nat j + 1 <= x.
Proof.
  revert lo j. induction l as [|a l IH]; intros lo j; [done|].
  intros [Hl Ha]%StronglySorted_inv [Hlo _]%Forall_cons Hk Hnk.
  apply not_elem_of_cons in Hnk as [Hka Hnk].
  assert (Forall (Z.le (a + 1)) l) as Ha'
    by (eapply Forall_impl; [exact Ha|]; cbn; intros; lia).
  destruct j as [|j]; cbn.
  - intros [= ->]. lia.
  - intros Hj Hkx. destruct (Z.lt_ge_cases a k) as [Hak|Hak].
    + assert (a + 1 + Z.of_nat j + 1 <= x); [|lia]. apply IH; [done|done|lia|done|done|done].
    + pose proof (increasing_lookup_ge l (a + 1) j x Hl Ha' Hj). lia.
Qed.

(** C9: when the batch array holds fewer sub-responses than there were
    requests, [batchBlockVisionData] returns one entry per sub-response
    received, hence fewer entries than requests; each entry comes from a
    sub-response that is present ([null] if it carries an error, its
    result otherwise), in order of id; and a sub-response whose id lies
    after an omitted id sits at an index smaller than its id, that is,
    before the index of the request it answers. *)
Theorem batch_omissions_shift_entries cfg {R}
    (provider : Request -> HttpReply (BatchBody R))
    (requests : list RpcCall) (rpcUrl : option string)
    (data : list (BlockVisionResponse R)) (w : World) :
  provider {| req_url := orElse rpcUrl (PROXY_URL cfg);
              req_body := BatchPayload (tagRequests requests) |}
    = JsonBody (BatchArray data) ->
  NoDup (res_id <$> data) ->
  (forall res, res ∈ data -> 0 <= res_id res < Z.of_nat (length requests)) ->
  (length data < length requests)%nat ->
  exists results w' sorted,
    batchBlockVisionData cfg provider requests rpcUrl w = (Returned results, w') /\
    length results = length data /\
    (length results < length requests)%nat /\
    sorted ≡ₚ data /\
    (forall (j : nat) res,
       sorted !! j = Some res ->
       results !! j = Some (match res_error res with
                            | Some _ => None
                            | None => res_result res
                            end)) /\
    (forall (j : nat), is_Some (results !! j) -> is_Some (sorted !! j)) /\
    (forall (k : Z) (j : nat) res,
       0 <= k -> k ∉ res_id <$> data ->
       sorted !! j = Some res -> k < res_id res ->
       Z.of_nat j < res_id res).
Proof.
  intros Hp Hnd Hrange Hshort.
  exists (subResult <$> sortById data). eexists. exists (sortById data).
  split; [by apply batchBlockVisionData_array|].
  assert (length (subResult <$> sortById data) = length data) as Hlen
    by (by rewrite length_fmap, sortById_length).
  split; [done|]. split; [lia|]. split; [apply sortById_perm|].
  split; [|split].
  - intros j res Hj. by rewrite list_lookup_fmap, Hj.
  - intros j. rewrite list_lookup_fmap. by intros [v Hv]%fmap_is_Some.
  - intros k j res Hk Hnk Hj Hkres.
    assert (StronglySorted Z.lt (res_id <$> sortById data)) as Hs.
    { apply sorted_le_nodup_lt; [apply sortById_sorted|].
      by rewrite sortById_perm. }
    assert (Forall (Z.le 0) (res_id <$> sortById data)) as Hlo.
    { apply Forall_fmap, Forall_forall. intros y Hy. cbn.
      rewrite sortById_perm in Hy. apply Hrange in Hy. lia. }
    assert (0 + Z.of_nat j + 1 <= res_id res); [|lia].
    apply (increasing_lookup_gap _ 0 k j (res_id res) Hs Hlo Hk).
    + by rewrite sortById_perm.
    + by rewrite list_lookup_fmap, Hj.
    + done.
Qed.

Lemma batch_results_follow_requests_witness :
  exists results w',
    batchBlockVisionData sampleConfig (fun _ => JsonBody (BatchArray reversedData))
      sampleRequests None sampleWorld = (Returned results, w') /\
    length results = length sampleRequests /\
    forall (i : nat) (req : RpcCall),
      sampleRequests !! i = Some req ->
      tagRequests sampleRequests !! i = Some {| req_call := req; req_id := Z.of_nat i |} /\
      exists res,
        res ∈ reversedData /\ res_id res = Z.of_nat i /\
        results !! i = Some (match res_error res with
                             | Some _ => None
                             | None => res_result res
                             end).
Proof.
  apply (batch_results_follow_requests sampleConfig
           (fun _ => JsonBody (BatchArray reversedData))
           sampleRequests None reversedData sampleWorld).
  - reflexivity.
  - cbn. solve_Permutation.
Defined.

Example batch_reversed_with_error :
  (batchBlockVisionData sampleConfig (fun _ => JsonBody (BatchArray reversedData))
     sampleRequests None sampleWorld).1 =
  Returned [Some (rawBlock "0x64" "0x12d" "0x5208" (Hashes []));
            None;
            Some (rawBlock "0x62" "0x12b" "0x5208" (Hashes []))].
Proof. reflexivity. Qed.

Lemma batch_omissions_shift_entries_witness :
  exists results w' sorted,
    batchBlockVisionData sampleConfig (fun _ => JsonBody (BatchArray sparseData))
      sampleRequests None sampleWorld = (Returned results, w') /\
    length results = length sparseData /\
    (length results < length sampleRequests)%nat /\
    sorted ≡ₚ sparseData /\
    (forall (j : nat) res,
       sorted !! j = Some res ->
       results !! j = Some (match res_error res with
                            | Some _ => None
                            | None => res_result res
                            end)) /\
    (forall (j : nat), is_Some (results !! j) -> is_Some (sorted !! j)) /\
    (forall (k : Z) (j : nat) res,
       0 <= k -> k ∉ res_id <$> sparseData ->
       sorted !! j = Some res -> k < res_id res ->
       Z.of_nat j < res_id res).
Proof.
  apply (batch_omissions_shift_entries sampleConfig
           (fun _ => JsonBody (BatchArray sparseData))
           sampleRequests None sparseData sampleWorld).
  - reflexivity.
  - cbn. apply NoDup_cons. split; [|apply NoDup_singleton].
    by intros ?%list_elem_of_singleton.
  - intros res Hres. cbn in Hres.
    apply elem_of_cons in Hres as [->|Hres]; [cbn; lia|].
    apply list_elem_of_singleton in Hres as ->. cbn. lia.
  - cbn. lia.
Defined.

Example batch_with_omission :
  (batchBlockVisionData sampleConfig (fun _ => JsonBody (BatchArray sparseData))
     sampleRequests None sampleWorld).1 =
  Returned [Some (rawBlock "0x64" "0x12d" "0x5208" (Hashes []));
            Some (rawBlock "0x62" "0x12b" "0x5208" (Hashes []))].
Proof. reflexivity. Qed.


(* ------------------------------------------------------------------ *)
(** ** Gas usage history *)
(* ------------------------------------------------------------------ *)

Lemma map_get_set {K V : Type} `{EqDecision K} (k k' : K) (v : V) (m : jsmap K V) :
  map_get k (map_set k' v m) = if decide (k' = k) then Some v else map_get k m.
Proof.
  induction m as [|[k0 v0] m IH]; cbn.
  - done.
  - destruct (decide (k0 = k')) as [->|Hne]; cbn.
    + by destruct (decide (k' = k)).
    + destruct (decide (k0 = k)) as [->|Hne'].
      * by destruct (decide (k' = k)) as [->|].
      * exact IH.
Qed.

Lemma numOrZero_Num (z : Z) : numOrZero (Num z) = Num z.
Proof.
  unfold numOrZero. cbn. destruct (Z.eqb_spec z 0) as [->|]; reflexivity.
Qed.

Lemma gasAt_addBlockGas (m : jsmap jsnum jsnum) (b : Block) (f : Z -> Z) :
  wellFormedBlock b ->
  (forall k, gasAt m (Num k) = Num (f k)) ->
  forall k, gasAt (addBlockGas m b) (Num k) = Num (f k + gasShare k b).
Proof.
  intros [Hts Hgas] Hm k. unfold addBlockGas, gasShare, blockSeconds, blockGasUsed.
  destruct (truthyField (timestamp b)) eqn:Et; cbn [negb orb];
    [|rewrite Hm; f_equal; lia].
  destruct (Hts eq_refl) as [t Ht]. rewrite Ht.
  destruct (gasUsed b) as [[|c s]|] eqn:Eg; cbn [truthyStr negb];
    [destruct (t / 60 =? k); rewrite Hm; f_equal; cbn [default from_option]; lia| |
     destruct (t / 60 =? k); rewrite Hm; f_equal; cbn [default from_option]; lia].
  destruct (Hgas eq_refl) as [g Hg].
  change (default "" (Some (String c s))) with (String c s) in Hg.
  change (default "" (Some (String c s))) with (String c s). rewrite Hg.
  unfold gasAt in *. cbn [floorDiv60]. rewrite map_get_set.
  destruct (decide (Num (t / 60) = Num k)) as [[= ->]|Hne].
  - rewrite Z.eqb_refl, Hm. cbn [numAdd].
    unfold default, from_option, id. by rewrite numOrZero_Num.
  - destruct (Z.eqb_spec (t / 60) k) as [E|E]; [by rewrite E in Hne|].
    rewrite Hm. f_equal. lia.
Qed.

Lemma gasAt_foldl (bs : list Block) (m : jsmap jsnum jsnum) (f : Z -> Z) :
  Forall wellFormedBlock bs ->
  (forall k, gasAt m (Num k) = Num (f k)) ->
  forall k, gasAt (foldl addBlockGas m bs) (Num k) = Num (f k + gasInMinute bs k).
Proof.
  revert m f. induction bs as [|b bs IH]; intros m f Hwf Hm k; cbn.
  - rewrite Hm. f_equal. unfold gasInMinute. cbn. lia.
  - apply Forall_cons in Hwf as [Hb Hbs].
    rewrite (IH _ (fun k => f k + gasShare k b) Hbs).
    + f_equal. unfold gasInMinute. cbn. lia.
    + by apply gasAt_addBlockGas.
Qed.

Lemma tryCatch_returns_list {A} (m : M (list A)) (w : World) :
  exists l w', tryCatch m (fun _ => ret []) w = (Returned l, w').
Proof.
  unfold tryCatch. destruct (m w) as [[l|e] w']; eauto.
Qed.

Lemma tryCatch_threw {A} (m : M (list A)) (w w' : World) (e : exn) :
  m w = (Threw e, w') -> tryCatch m (fun _ => ret []) w = (Returned [], w').
Proof. intros H. unfold tryCatch. by rewrite H. Qed.

(** C6: when the latest block, the older block and the batch are all
    fetched, [getGasUsageHistory(m)] returns exactly [m] entries; entry
    [i] (oldest first) is the minute [m - 1 - i] minutes before the
    latest block's own timestamp, and its [gasUsed] is the sum of the gas
    of the fetched blocks whose timestamp falls in that minute (0 when
    there is none).  Whatever the world, the function returns a list and
    never throws: the empty list when something in the [try] block throws
    or when the latest block is [null]. *)
Theorem gas_history_minutes cfg P timeLabel (minutes : nat) (w : World)
    (latestBlock : Block) (w1 : World) (olderBlock : option Block) (w2 : World)
    (results : list (option RawBlock)) (w3 : World) :
  let fetched := castBlock <$> omap id results in
  getBlockByNumber cfg P (TagString "latest") false None w
    = (Returned (Some latestBlock), w1) ->
  getBlockByNumber cfg P
    (TagNumber (numSub (fieldNumber (number latestBlock)) (Num 100))) false None w1
    = (Returned olderBlock, w2) ->
  batchBlockVisionData cfg (eth_batch P)
    (blockRequests false
       (blockNumbersToFetch (fieldNumber (number latestBlock))
          (blocksToFetch (Z.of_nat minutes) latestBlock olderBlock)))
    None w2
    = (Returned results, w3) ->
  (exists points,
     getGasUsageHistory cfg P timeLabel minutes w = (Returned points, w3) /\
     length points = minutes /\
     forall now, timestamp latestBlock = FNum (Num now) ->
       Forall wellFormedBlock fetched ->
       forall i, (i < minutes)%nat ->
         let minuteTimestamp := now - (Z.of_nat minutes - 1 - Z.of_nat i) * 60 in
         points !! i =
           Some {| gp_time := timeLabel (Num minuteTimestamp);
                   gp_gasUsed := Num (gasInMinute fetched (minuteTimestamp / 60)) |}) /\
  (forall w0,
     (exists points w', getGasUsageHistory cfg P timeLabel minutes w0 = (Returned points, w')) /\
     (forall e w',
        gasUsageHistoryTry cfg P timeLabel minutes w0 = (Threw e, w') ->
        getGasUsageHistory cfg P timeLabel minutes w0 = (Returned [], w')) /\
     (forall w',
        getBlockByNumber cfg P (TagString "latest") false None w0 = (Returned None, w') ->
        getGasUsageHistory cfg P timeLabel minutes w0 = (Returned [], w'))).
Proof.
  intros fetched Hlatest Holder Hbatch. split.
  - eexists. split; [|split].
    + unfold getGasUsageHistory, tryCatch, gasUsageHistoryTry, mbind, M_bind, bind.
      rewrite Hlatest. cbv zeta. rewrite Holder, Hbatch. reflexivity.
    + rewrite length_reverse, length_fmap. unfold upto.
      by rewrite length_fmap, length_seq, Nat2Z.id.
    + intros now Hnow Hwf i Hi. cbv zeta.
      rewrite reverse_lookup
        by (unfold upto; by rewrite !length_fmap, length_seq, Nat2Z.id).
      unfold upto. rewrite !length_fmap, length_seq, Nat2Z.id.
      rewrite !list_lookup_fmap, lookup_seq_lt by lia. cbn [fmap option_fmap option_map].
      rewrite Hnow. cbn [fieldNumber numSub floorDiv60].
      replace (now - Z.of_nat (0 + (minutes - S i)) * 60)
        with (now - (Z.of_nat minutes - 1 - Z.of_nat i) * 60) by lia.
      do 2 f_equal.
      rewrite (gasAt_foldl (castBlock <$> omap id results) [] (fun _ => 0) Hwf).
      * f_equal.
      * intros k. reflexivity.
  - intros w0. split; [apply tryCatch_returns_list|]. split.
    + intros e w'. apply tryCatch_threw.
    + intros w' H0. unfold getGasUsageHistory, tryCatch, gasUsageHistoryTry,
        mbind, M_bind, bind. by rewrite H0.
Qed.

Lemma gas_history_minutes_witness :
  exists points w3,
    getGasUsageHistory sampleConfig sampleProvider utcLabel 2 sampleWorld
      = (Returned points, w3) /\
    length points = 2%nat /\
    points !! 0%nat = Some {| gp_time := "00:04"; gp_gasUsed := Num 21000 |} /\
    points !! 1%nat = Some {| gp_time := "00:05"; gp_gasUsed := Num 21000 |}.
Proof.
  edestruct (gas_history_minutes sampleConfig sampleProvider utcLabel 2 sampleWorld)
    as [(points & Hrun & Hlen & Hsum) _].
  - reflexivity.
  - reflexivity.
  - reflexivity.
  - exists points. eexists. split; [exact Hrun|]. split; [exact Hlen|].
    assert (Forall wellFormedBlock
              (castBlock <$> omap id
                 [Some (rawBlock "0x64" "0x12d" "0x5208" (Hashes []));
                  None;
                  Some (rawBlock "0x62" "0x12b" "0x5208" (Hashes []))])) as Hwf.
    { repeat constructor; intros _; eexists; reflexivity. }
    split.
    + apply (Hsum 301 eq_refl Hwf 0%nat). lia.
    + apply (Hsum 301 eq_refl Hwf 1%nat). lia.
Defined.

(* ------------------------------------------------------------------ *)
(** ** Ecosystem health *)
(* ------------------------------------------------------------------ *)

Lemma percentOf_pos (count : Z) (p : positive) :
  (percentOf count (Z.pos p) == (100 * count # p))%Q.
Proof.
  unfold percentOf, Qeq, Qdiv, Qinv, Qmult, inject_Z. cbn. lia.
Qed.

Lemma toFixed2_comp (x y : Q) : (x == y)%Q -> (toFixed2 x == toFixed2 y)%Q.
Proof.
  intros Hxy. unfold toFixed2.
  assert (Qle_bool 0 x = Qle_bool 0 y) as ->.
  { apply eq_true_iff_eq. rewrite !Qle_bool_iff. by rewrite Hxy. }
  assert (Qfloor (x * 100 + (1 # 2)) = Qfloor (y * 100 + (1 # 2))) as ->
    by (apply Qfloor_comp; by rewrite Hxy).
  assert (Qfloor (- x * 100 + (1 # 2)) = Qfloor (- y * 100 + (1 # 2))) as ->
    by (apply Qfloor_comp; by rewrite Hxy).
  reflexivity.
Qed.

Lemma healthScoreOf_comp (s s' f f' : Q) :
  (s == s')%Q -> (f == f')%Q -> healthScoreOf s f = healthScoreOf s' f'.
Proof.
  intros Hs Hf. unfold healthScoreOf, Qgtb, Qltb.
  assert (Qle_bool s 95 = Qle_bool s' 95) as ->
    by (apply eq_true_iff_eq; rewrite !Qle_bool_iff; by rewrite Hs).
  assert (Qle_bool 5 f = Qle_bool 5 f') as ->
    by (apply eq_true_iff_eq; rewrite !Qle_bool_iff; by rewrite Hf).
  reflexivity.
Qed.

Lemma Qgtb_lt (a b : Q) : Qgtb a b = true <-> (b < a)%Q.
Proof.
  unfold Qgtb. rewrite negb_true_iff, <- not_true_iff_false, Qle_bool_iff.
  split; [apply Qnot_le_lt|apply Qlt_not_le].
Qed.

Lemma Qltb_lt (a b : Q) : Qltb a b = true <-> (a < b)%Q.
Proof.
  unfold Qltb. rewrite negb_true_iff, <- not_true_iff_false, Qle_bool_iff.
  split; [apply Qnot_le_lt|apply Qlt_not_le].
Qed.

(** The rule itself, on the rates before rounding. *)
Lemma healthScoreOf_rule (successRate failedTxRate : Q) :
  (healthScoreOf successRate failedTxRate = "Healthy" <->
   (95 < successRate /\ failedTxRate < 5)%Q) /\
  (healthScoreOf successRate failedTxRate <> "Healthy" ->
   healthScoreOf successRate failedTxRate = "Needs Attention").
Proof.
  unfold healthScoreOf. rewrite <- Qgtb_lt, <- Qltb_lt, <- andb_true_iff.
  destruct (Qgtb successRate 95 && Qltb failedTxRate 5);
    (split; [split|]); try done; try discriminate.
Qed.

Lemma tallyTx_counts (txs : list Transaction) (a : Tally) :
  let a' := foldl tallyTx a txs in
  txCount a' = txCount a + Z.of_nat (length txs) /\
  successCount a' = successCount a + countStatus 1 txs /\
  failedCount a' = failedCount a + countStatus 0 txs.
Proof.
  revert a. induction txs as [|tx txs IH]; intros a; cbn.
  - unfold countStatus. cbn. lia.
  - specialize (IH (tallyTx a tx)). cbv zeta in IH.
    destruct IH as (Ht & Hs & Hf). rewrite Ht, Hs, Hf.
    unfold countStatus. cbn [tallyTx txCount successCount failedCount].
    rewrite !filter_cons.
    repeat case_decide; cbn [length]; lia.
Qed.

Lemma tallyBlock_counts (blocks : list Block) (a : Tally) :
  let a' := foldl tallyBlock a blocks in
  txCount a' = txCount a + Z.of_nat (length (windowTxs blocks)) /\
  successCount a' = successCount a + countStatus 1 (windowTxs blocks) /\
  failedCount a' = failedCount a + countStatus 0 (windowTxs blocks).
Proof.
  revert a. induction blocks as [|b blocks IH]; intros a; cbn [foldl].
  - unfold countStatus. cbn. lia.
  - specialize (IH (tallyBlock a b)). cbv zeta in IH. cbv zeta.
    destruct IH as (Ht & Hs & Hf). rewrite Ht, Hs, Hf.
    change (windowTxs (b :: blocks))
      with (default [] (prefetchedTransactions b) ++ windowTxs blocks).
    unfold countStatus. rewrite !filter_app, !length_app.
    unfold tallyBlock.
    destruct (prefetchedTransactions b) as [txs|]; cbn [default from_option id].
    + pose proof (tallyTx_counts txs a) as (Ht' & Hs' & Hf'). cbv zeta in *.
      rewrite Ht', Hs', Hf'. unfold countStatus. lia.
    + rewrite !filter_nil. cbn [length]. lia.
Qed.

Lemma countStatus_all (status : Z) (txs : list Transaction) :
  Forall (fun tx => tx_status tx = Some status) txs ->
  countStatus status txs = Z.of_nat (length txs).
Proof.
  intros H. unfold countStatus. f_equal.
  induction H as [|tx txs Htx _ IH]; [done|].
  rewrite filter_cons. case_decide; [|done]. cbn. by rewrite IH.
Qed.

Lemma countStatus_disjoint (txs : list Transaction) :
  Forall (fun tx => tx_status tx = Some 1) txs -> countStatus 0 txs = 0.
Proof.
  intros H. unfold countStatus.
  induction H as [|tx txs Htx _ IH]; [done|].
  rewrite filter_cons. case_decide; [congruence|done].
Qed.

Ltac destruct_step :=
  match goal with
  | |- context [match ?x with _ => _ end] =>
      lazymatch x with
      | context [match _ with _ => _ end] => fail
      | _ => destruct x eqn:?
      end
  | |- context [if ?x then _ else _] =>
      lazymatch x with
      | context [match _ with _ => _ end] => fail
      | _ => destruct x eqn:?
      end
  end.

(** What the fail-closed variant returns is [calculateMetrics] of the
    blocks its walk collected. *)
Lemma getEcosystemHealthMetrics_result cfg P (w w' : World) (r : HealthMetrics) :
  getEcosystemHealthMetrics cfg P w = (Returned r, w') ->
  exists blocks, r = calculateMetrics blocks.
Proof.
  unfold getEcosystemHealthMetrics, mbind, M_bind, bind, ret, throw.
  repeat (destruct_step; try discriminate);
    intros [= <- <-]; eauto.
Qed.

Lemma percentOf_all (n : Z) : 0 < n -> (percentOf n n == 100)%Q.
Proof.
  destruct n as [|p|p]; try lia. intros _.
  rewrite percentOf_pos. unfold Qeq. cbn. lia.
Qed.

Lemma percentOf_none (n : Z) : 0 < n -> (percentOf 0 n == 0)%Q.
Proof.
  destruct n as [|p|p]; try lia. intros _.
  rewrite percentOf_pos. unfold Qeq. cbn. lia.
Qed.

Lemma percentOf_above (count n k : Z) :
  0 < n -> k * n < 100 * count -> (inject_Z k < percentOf count n)%Q.
Proof.
  destruct n as [|p|p]; try lia. intros _ H.
  rewrite percentOf_pos. unfold Qlt, inject_Z. cbn [Qnum Qden]. lia.
Qed.

(** C2: for every window of blocks that the fail-closed variant scans:
    its counters are the counts over the window's transactions; if all
    of them have status 1, [successRate] is 100 and [healthScore] is
    "Healthy"; if more than 5% of them have status 0, [healthScore] is
    "Needs Attention"; [healthScore] is "Healthy" exactly when
    [successRate > 95] and [failedTxRate < 5] (the rates before they are
    rounded for display), and "Needs Attention" otherwise.  The fail-open
    variant applies the same rule to its own rates, and the fail-closed
    variant returns nothing but the metrics of some window. *)
Theorem health_classification (blocks : list Block) :
  let m := calculateMetrics blocks in
  let txs := windowTxs blocks in
  let a := foldl tallyBlock emptyTally blocks in
  (txCount a = Z.of_nat (length txs) /\
   successCount a = countStatus 1 txs /\
   failedCount a = countStatus 0 txs) /\
  (Forall (fun tx => tx_status tx = Some 1) txs ->
   (hm_successRate m == 100)%Q /\ hm_healthScore m = "Healthy") /\
  (5 * Z.of_nat (length txs) < 100 * countStatus 0 txs ->
   hm_healthScore m = "Needs Attention") /\
  (hm_healthScore m = "Healthy" <->
   (95 < successRateOf a /\ failedTxRateOf a < 5)%Q) /\
  (hm_healthScore m <> "Healthy" -> hm_healthScore m = "Needs Attention") /\
  (forall failedBlocks receiptResults,
     let r := recentMetrics blocks failedBlocks receiptResults in
     (rh_healthScore r = "Healthy" <->
      (95 < recentRateOf (rh_successCount r) (rh_totalTxCount r) /\
       recentRateOf (rh_failedCount r) (rh_totalTxCount r) < 5)%Q) /\
     (rh_healthScore r <> "Healthy" -> rh_healthScore r = "Needs Attention")) /\
  (forall cfg P (w w' : World) (r : HealthMetrics),
     getEcosystemHealthMetrics cfg P w = (Returned r, w') ->
     exists window, r = calculateMetrics window).
Proof.
  intros m txs a.
  pose proof (tallyBlock_counts blocks emptyTally) as (Ht & Hs & Hf).
  cbv zeta in Ht, Hs, Hf. cbn [emptyTally txCount successCount failedCount] in Ht, Hs, Hf.
  fold a in Ht, Hs, Hf. fold txs in Ht, Hs, Hf.
  rewrite Z.add_0_l in Ht, Hs, Hf.
  assert (hm_healthScore m = healthScoreOf (successRateOf a) (failedTxRateOf a)) as Hscore
    by reflexivity.
  assert (hm_successRate m = toFixed2 (successRateOf a)) as Hrate by reflexivity.
  split; [done|]. split; [|split; [|split; [|split; [|split]]]].
  - intros Hall. rewrite Hscore, Hrate.
    pose proof (countStatus_all 1 txs Hall) as H1.
    pose proof (countStatus_disjoint txs Hall) as H0.
    unfold successRateOf, failedTxRateOf. rewrite Hs, Hf, H1, H0, Ht.
    destruct (Z.gtb_spec (Z.of_nat (length txs)) 0) as [Hpos|Hzero].
    + split.
      * rewrite (toFixed2_comp _ 100) by (apply percentOf_all; lia). reflexivity.
      * rewrite (healthScoreOf_comp _ 100 _ 0)
          by (apply percentOf_all || apply percentOf_none; lia).
        reflexivity.
    + split; reflexivity.
  - intros Hmany. rewrite Hscore. unfold healthScoreOf.
    assert (Qltb (failedTxRateOf a) 5 = false) as ->; [|by rewrite andb_false_r].
    apply not_true_iff_false. rewrite Qltb_lt. apply Qle_not_lt, Qlt_le_weak.
    unfold failedTxRateOf. rewrite Hf, Ht.
    assert (0 <= countStatus 0 txs <= Z.of_nat (length txs)).
    { unfold countStatus.
      pose proof (length_filter (fun tx => tx_status tx = Some 0) txs). lia. }
    destruct (Z.gtb_spec (Z.of_nat (length txs)) 0) as [Hpos|Hzero]; [|lia].
    apply (percentOf_above _ _ 5); lia.
  - rewrite Hscore. apply healthScoreOf_rule.
  - rewrite Hscore. apply healthScoreOf_rule.
  - intros failedBlocks receiptResults r. split; apply healthScoreOf_rule.
  - intros cfg P w w' r. apply getEcosystemHealthMetrics_result.
Qed.

Lemma health_classification_witness :
  (hm_successRate (calculateMetrics healthyWindow) == 100)%Q /\
  hm_healthScore (calculateMetrics healthyWindow) = "Healthy" /\
  hm_healthScore (calculateMetrics revertingWindow) = "Needs Attention".
Proof.
  pose proof (health_classification healthyWindow) as (_ & Hall & _).
  pose proof (health_classification revertingWindow) as (_ & _ & Hmany & _).
  cbv zeta in Hall, Hmany. split; [|split].
  - apply Hall. repeat constructor.
  - apply Hall. repeat constructor.
  - apply Hmany. vm_compute. reflexivity.
Defined.

Example healthy_window_metrics :
  hm_healthScore (calculateMetrics healthyWindow) = "Healthy" /\
  hm_txCount (calculateMetrics healthyWindow) = 3 /\
  hm_healthScore (calculateMetrics revertingWindow) = "Needs Attention".
Proof. vm_compute. done. Qed.

(** What the fail-open variant returns, when it is not [null], is
    [recentMetrics] of the blocks that came back. *)
Lemma getRecentEcosystemHealthMetrics_result cfg P (n : nat) (w w' : World)
    (r : RecentHealthMetrics) :
  getRecentEcosystemHealthMetrics cfg P n w = (Returned (Some r), w') ->
  exists blocks failedBlocks receiptResults,
    blocks <> [] /\ r = recentMetrics blocks failedBlocks receiptResults.
Proof.
  unfold getRecentEcosystemHealthMetrics, mbind, M_bind, bind, ret, throw, lift.
  repeat (destruct_step; try discriminate);
    intros [= <- <-]; eexists _, _, _; (split; [|reflexivity]); congruence.
Qed.

Lemma recentMetrics_empty blocks failedBlocks receiptResults :
  rh_totalTxCount (recentMetrics blocks failedBlocks receiptResults) = 0 ->
  (rh_successRate (recentMetrics blocks failedBlocks receiptResults) == 0)%Q /\
  rh_healthScore (recentMetrics blocks failedBlocks receiptResults) = "Needs Attention".
Proof.
  cbn [recentMetrics rh_totalTxCount rh_successRate rh_healthScore].
  intros ->. split; reflexivity.
Qed.

Lemma calculateMetrics_empty blocks :
  hm_txCount (calculateMetrics blocks) = 0 ->
  (hm_successRate (calculateMetrics blocks) == 100)%Q /\
  (hm_failedTxRate (calculateMetrics blocks) == 0)%Q /\
  hm_healthScore (calculateMetrics blocks) = "Healthy".
Proof.
  cbn [calculateMetrics hm_txCount hm_successRate hm_failedTxRate hm_healthScore].
  unfold successRateOf, failedTxRateOf. intros ->. repeat split; reflexivity.
Qed.

(** C8: the two variants classify a window without transactions
    oppositely.  When the scanned window holds no transaction
    ([txCount] is 0) the fail-closed variant returns [successRate] 100,
    [failedTxRate] 0 and "Healthy"; when the blocks that came back hold
    no transaction ([totalTxCount] is 0) the fail-open variant returns
    [successRate] 0 and "Needs Attention". *)
Theorem empty_window_opposite_verdicts :
  (forall blocks,
     windowTxs blocks = [] ->
     hm_txCount (calculateMetrics blocks) = 0 /\
     (hm_successRate (calculateMetrics blocks) == 100)%Q /\
     (hm_failedTxRate (calculateMetrics blocks) == 0)%Q /\
     hm_healthScore (calculateMetrics blocks) = "Healthy") /\
  (forall cfg P (w w' : World) (r : HealthMetrics),
     getEcosystemHealthMetrics cfg P w = (Returned r, w') ->
     hm_txCount r = 0 ->
     (hm_successRate r == 100)%Q /\ (hm_failedTxRate r == 0)%Q /\
     hm_healthScore r = "Healthy") /\
  (forall blocks failedBlocks receiptResults,
     totalTxCountOf blocks = 0 ->
     (rh_successRate (recentMetrics blocks failedBlocks receiptResults) == 0)%Q /\
     rh_healthScore (recentMetrics blocks failedBlocks receiptResults) = "Needs Attention") /\
  (forall cfg P (n : nat) (w w' : World) (r : RecentHealthMetrics),
     getRecentEcosystemHealthMetrics cfg P n w = (Returned (Some r), w') ->
     rh_totalTxCount r = 0 ->
     (rh_successRate r == 0)%Q /\ rh_healthScore r = "Needs Attention").
Proof.
  split; [|split; [|split]].
  - intros blocks Hempty.
    assert (hm_txCount (calculateMetrics blocks) = 0) as H0.
    { pose proof (tallyBlock_counts blocks emptyTally) as (Ht & _).
      cbv zeta in Ht. cbn [calculateMetrics hm_txCount]. rewrite Ht, Hempty. reflexivity. }
    split; [exact H0|]. by apply calculateMetrics_empty.
  - intros cfg P w w' r Hrun H0.
    apply getEcosystemHealthMetrics_result in Hrun as [blocks ->].
    by apply calculateMetrics_empty.
  - intros blocks failedBlocks receiptResults H0. by apply recentMetrics_empty.
  - intros cfg P n w w' r Hrun H0.
    apply getRecentEcosystemHealthMetrics_result in Hrun
      as (blocks & failedBlocks & receiptResults & _ & ->).
    by apply recentMetrics_empty.
Qed.

Lemma empty_window_opposite_verdicts_witness :
  (exists r w',
     getEcosystemHealthMetrics sampleConfig sampleProvider sampleWorld = (Returned r, w') /\
     hm_txCount r = 0 /\ (hm_successRate r == 100)%Q /\ hm_healthScore r = "Healthy") /\
  (exists r w',
     getRecentEcosystemHealthMetrics sampleConfig sampleProvider 3 sampleWorld
       = (Returned (Some r), w') /\
     rh_totalTxCount r = 0 /\ (rh_successRate r == 0)%Q /\
     rh_healthScore r = "Needs Attention").
Proof.
  destruct empty_window_opposite_verdicts as (_ & Hclosed & _ & Hopen).
  split.
  - eassert (getEcosystemHealthMetrics sampleConfig sampleProvider sampleWorld
             = (Returned _, _)) as Hrun.
    { vm_compute. reflexivity. }
    eexists _, _. split; [exact Hrun|].
    split; [reflexivity|].
    destruct (Hclosed _ _ _ _ _ Hrun eq_refl) as (Hs & _ & Hh). by split.
  - eassert (getRecentEcosystemHealthMetrics sampleConfig sampleProvider 3 sampleWorld
             = (Returned (Some _), _)) as Hrun.
    { vm_compute. reflexivity. }
    eexists _, _. split; [exact Hrun|].
    split; [reflexivity|].
    destruct (Hopen _ _ _ _ _ _ Hrun eq_refl) as (Hs & Hh). by split.
Defined.

(* ------------------------------------------------------------------ *)
(** ** Merging by key under a cap *)
(* ------------------------------------------------------------------ *)

Lemma elem_of_take_weaken {A} (x : A) (n : nat) (l : list A) : x ∈ take n l -> x ∈ l.
Proof. intros Hx. eapply elem_of_sublist; [exact Hx|apply sublist_take]. Qed.

Lemma NoDup_take_weaken {A} (n : nat) (l : list A) : NoDup l -> NoDup (take n l).
Proof. intros Hl. eapply sublist_NoDup; [exact Hl|apply sublist_take]. Qed.

Section KeepFresh.

Context {A K : Type} `{EqDecision K} (key : A -> K).
Implicit Types (seen : list K) (l : list A).

Lemma keepFresh_seen_equiv seen seen' l :
  (forall k, k ∈ seen <-> k ∈ seen') ->
  keepFresh key seen l = keepFresh key seen' l.
Proof.
  revert seen seen'. induction l as [|x l IH]; intros seen seen' Hs; cbn; [done|].
  rewrite (bool_decide_ext _ _ (Hs (key x))).
  destruct (bool_decide (key x ∈ seen')); [by apply IH|].
  f_equal. apply IH. intros k. rewrite !elem_of_app. by rewrite Hs.
Qed.

Lemma keepFresh_app seen l1 l2 :
  keepFresh key seen (l1 ++ l2) =
  keepFresh key seen l1 ++ keepFresh key (seen ++ (key <$> l1)) l2.
Proof.
  revert seen. induction l1 as [|x l1 IH]; intros seen; cbn.
  - by rewrite app_nil_r.
  - case_bool_decide as Hx.
    + rewrite IH. f_equal. apply keepFresh_seen_equiv.
      intros k. cbn [fmap list_fmap]. rewrite !elem_of_app, elem_of_cons.
      intuition (subst; auto).
    + cbn. f_equal. rewrite IH. f_equal. by rewrite <- app_assoc.
Qed.

Lemma keepFresh_all_seen seen l :
  (forall x, x ∈ l -> key x ∈ seen) -> keepFresh key seen l = [].
Proof.
  induction l as [|x l IH]; intros Hl; cbn; [done|].
  rewrite bool_decide_eq_true_2 by (apply Hl; left).
  apply IH. intros y Hy. apply Hl. by right.
Qed.

Lemma keepFresh_elem seen l x : x ∈ keepFresh key seen l -> x ∈ l /\ key x ∉ seen.
Proof.
  revert seen. induction l as [|y l IH]; intros seen; cbn; [by intros ?%elem_of_nil|].
  case_bool_decide as Hy.
  - intros [? ?]%IH. split; [by right|done].
  - intros [->|[? Hn]%IH]%elem_of_cons; [split; [left|done]|].
    split; [by right|]. intros ?. apply Hn, elem_of_app. by left.
Qed.

Lemma keepFresh_fresh seen l : fresh key seen (keepFresh key seen l).
Proof.
  split; [|intros x Hx; by apply keepFresh_elem in Hx as [_ ?]].
  revert seen. induction l as [|y l IH]; intros seen; cbn; [constructor|].
  case_bool_decide as Hy; [apply IH|]. cbn. constructor; [|apply IH].
  intros (x & Hk & Hx)%list_elem_of_fmap. apply keepFresh_elem in Hx as [_ Hn].
  apply Hn, elem_of_app. right. apply list_elem_of_singleton. congruence.
Qed.

Lemma keepFresh_of_fresh seen l : fresh key seen l -> keepFresh key seen l = l.
Proof.
  revert seen. induction l as [|x l IH]; intros seen [Hnd Hs]; cbn; [done|].
  cbn in Hnd. apply NoDup_cons in Hnd as [Hx Hnd].
  rewrite bool_decide_eq_false_2 by (apply Hs; left).
  f_equal. apply IH. split; [done|].
  intros y Hy [?|Heq%list_elem_of_singleton]%elem_of_app.
  - by apply (Hs y); [right|].
  - apply Hx, list_elem_of_fmap. eauto.
Qed.

Lemma fresh_take seen l n : fresh key seen l -> fresh key seen (take n l).
Proof.
  intros [Hnd Hs]. split.
  - rewrite fmap_take. by apply NoDup_take_weaken.
  - intros x Hx. apply Hs. by eapply elem_of_take_weaken.
Qed.

Lemma fresh_weaken seen seen' l :
  (forall k, k ∈ seen' -> k ∈ seen) -> fresh key seen l -> fresh key seen' l.
Proof. intros Hs [Hnd Hl]. split; [done|]. intros x Hx ?. by apply (Hl x), Hs. Qed.

(** Merging the same head [D] a second time into the capped result
    changes nothing. *)
Lemma merge_twice (cap : nat) seen (D rest : list A) :
  (forall x, x ∈ D -> key x ∈ seen) ->
  fresh key seen rest ->
  take cap (D ++ keepFresh key seen (take cap (D ++ rest))) = take cap (D ++ rest).
Proof.
  intros HD Hrest. rewrite (take_app D rest cap), keepFresh_app.
  rewrite keepFresh_all_seen
    by (intros x Hx; apply HD; by eapply elem_of_take_weaken).
  cbn [app]. rewrite keepFresh_of_fresh.
  - rewrite take_app, take_take. f_equal. f_equal. lia.
  - apply fresh_take. eapply fresh_weaken; [|exact Hrest].
    intros k [?|(x & -> & Hx)%list_elem_of_fmap]%elem_of_app; [done|].
    apply HD. by eapply elem_of_take_weaken.
Qed.

End KeepFresh.

Lemma findIndexFrom_skip {A} (f : A -> bool) (i : Z) (pre l : list A) :
  (forall x, x ∈ pre -> f x = false) ->
  findIndexFrom f i (pre ++ l) = findIndexFrom f (i + Z.of_nat (length pre)) l.
Proof.
  revert i. induction pre as [|y pre IH]; intros i Hpre; cbn.
  - f_equal. lia.
  - rewrite (Hpre y) by left. rewrite IH by (intros x Hx; apply Hpre; by right).
    f_equal. lia.
Qed.

Lemma findIndexFrom_hit {A} (f : A -> bool) (i : Z) (pre l : list A) (x : A) :
  x ∈ pre -> f x = true ->
  i <= findIndexFrom f i (pre ++ l) < i + Z.of_nat (length pre).
Proof.
  revert i. induction pre as [|y pre IH]; intros i Hx Hfx; [by apply elem_of_nil in Hx|].
  cbn. destruct (f y) eqn:Hfy; [lia|].
  apply elem_of_cons in Hx as [->|Hx]; [congruence|].
  specialize (IH (i + 1) Hx Hfx). lia.
Qed.

(** The [filter]/[findIndex] idiom keeps the first entry of every id. *)
Lemma uniqueEvents_keepFresh (pre l : list Event) :
  filterFrom
    (fun event index =>
       Z.of_nat index =? findIndex (fun e => String.eqb (ev_id e) (ev_id event)) (pre ++ l))
    (length pre) l =
  keepFresh ev_id (ev_id <$> pre) l.
Proof.
  revert pre. induction l as [|x l IH]; intros pre; cbn [filterFrom keepFresh]; [done|].
  specialize (IH (pre ++ [x])). rewrite <- app_assoc in IH. cbn [app] in IH.
  rewrite length_app in IH. cbn [length] in IH. rewrite Nat.add_1_r in IH.
  rewrite fmap_app in IH. cbn [fmap list_fmap] in IH.
  unfold findIndex. case_bool_decide as Hseen.
  - apply list_elem_of_fmap in Hseen as (y & Hy & Hin).
    pose proof (findIndexFrom_hit
                  (fun e => String.eqb (ev_id e) (ev_id x)) 0 pre (x :: l) y Hin) as Hlt.
    cbv beta in Hlt. rewrite <- Hy, String.eqb_refl in Hlt. specialize (Hlt eq_refl).
    destruct (Z.eqb_spec (Z.of_nat (length pre))
                (findIndexFrom (fun e => String.eqb (ev_id e) (ev_id x)) 0 (pre ++ x :: l)))
      as [Heq|_]; [lia|].
    unfold findIndex in IH. rewrite IH. apply keepFresh_seen_equiv.
    intros k. rewrite elem_of_app, list_elem_of_singleton.
    split; [|tauto]. intros [?| ->]; [done|].
    rewrite Hy. apply list_elem_of_fmap. eauto.
  - rewrite findIndexFrom_skip.
    + cbn [findIndexFrom]. rewrite String.eqb_refl.
      rewrite Z.add_0_l, Z.eqb_refl. f_equal. exact IH.
    + intros y Hy. apply String.eqb_neq. intros Heq. apply Hseen.
      apply list_elem_of_fmap. eauto.
Qed.

Lemma mergeEvents_keepFresh (newEvents prevEvents : list Event) :
  mergeEvents newEvents prevEvents =
  take 20 (keepFresh ev_id [] newEvents ++
           keepFresh ev_id (ev_id <$> newEvents) prevEvents).
Proof.
  unfold mergeEvents, filterWithIndex. f_equal.
  etrans; [exact (uniqueEvents_keepFresh [] (newEvents ++ prevEvents))|].
  exact (keepFresh_app ev_id [] newEvents prevEvents).
Qed.

Section JsMapFacts.

Context {A K : Type} `{EqDecision K} (key : A -> K).
Implicit Types (m : jsmap K A).

Lemma map_has_keys (k : K) m : map_has k m = bool_decide (k ∈ m.*1).
Proof.
  unfold map_has. induction m as [|[k' v] m IH]; cbn; [done|].
  destruct (decide (k' = k)) as [->|Hne].
  - symmetry. apply bool_decide_eq_true_2. left.
  - rewrite IH. apply bool_decide_ext. rewrite elem_of_cons. intuition congruence.
Qed.

Lemma map_set_absent (k : K) (v : A) m : k ∉ m.*1 -> map_set k v m = m ++ [(k, v)].
Proof.
  induction m as [|[k' v'] m IH]; cbn; [done|].
  intros [Hne Hk]%not_elem_of_cons. rewrite decide_False by done. by rewrite IH.
Qed.

Lemma map_set_keys (k : K) (v : A) m :
  (map_set k v m).*1 = if bool_decide (k ∈ m.*1) then m.*1 else m.*1 ++ [k].
Proof.
  induction m as [|[k' v'] m IH]; cbn; [done|].
  destruct (decide (k' = k)) as [->|Hne]; cbn.
  - by rewrite bool_decide_eq_true_2 by left.
  - rewrite IH. rewrite (bool_decide_ext (k ∈ k' :: m.*1) (k ∈ m.*1))
      by (rewrite elem_of_cons; intuition congruence).
    by destruct (bool_decide (k ∈ m.*1)).
Qed.

Lemma map_set_NoDup (k : K) (v : A) m : NoDup m.*1 -> NoDup (map_set k v m).*1.
Proof.
  intros Hnd. rewrite map_set_keys. case_bool_decide as Hk; [done|].
  apply NoDup_app. split; [done|]. split; [|apply NoDup_singleton].
  intros x Hx ->%list_elem_of_singleton. done.
Qed.

Lemma map_set_consistent (x : A) m :
  consistent key m -> consistent key (map_set (key x) x m).
Proof.
  unfold consistent. induction m as [|[k' v'] m IH]; cbn.
  - intros _ k v Hin%list_elem_of_singleton. by injection Hin as -> ->.
  - intros Hm k v. destruct (decide (k' = key x)) as [->|Hne].
    + intros [Hin|Hin]%elem_of_cons; [by injection Hin as -> ->|].
      apply Hm. by right.
    + intros [Hin|Hin]%elem_of_cons; [apply Hm; rewrite Hin; left|].
      apply IH; [|done]. intros k0 v0 H0. apply Hm. by right.
Qed.

Lemma consistent_values_keys m : consistent key m -> key <$> map_values m = m.*1.
Proof.
  unfold map_values. induction m as [|[k v] m IH]; intros Hm; cbn; [done|].
  rewrite (Hm k v) by left. f_equal. apply IH.
  intros k0 v0 H0. apply Hm. by right.
Qed.

(** The first loop of the updater: every new row is filed, in place. *)
Lemma fileAll_invariant (txs : list A) m :
  consistent key m -> NoDup m.*1 ->
  consistent key (foldl (fun m tx => map_set (key tx) tx m) m txs) /\
  NoDup (foldl (fun m tx => map_set (key tx) tx m) m txs).*1.
Proof.
  revert m. induction txs as [|x txs IH]; intros m Hm Hnd; cbn; [done|].
  apply IH; [by apply map_set_consistent|by apply map_set_NoDup].
Qed.

(** The second loop: a previous row is appended unless its key is
    already filed. *)
Lemma fileAbsent_values (prev : list A) m :
  map_values
    (foldl (fun m tx => if map_has (key tx) m then m else map_set (key tx) tx m) m prev) =
  map_values m ++ keepFresh key m.*1 prev.
Proof.
  revert m. induction prev as [|x prev IH]; intros m; cbn [foldl keepFresh].
  - by rewrite app_nil_r.
  - rewrite map_has_keys. case_bool_decide as Hk; [apply IH|].
    rewrite IH, map_set_absent by done. unfold map_values.
    rewrite !fmap_app. cbn [fmap list_fmap fst snd]. by rewrite <- app_assoc.
Qed.

End JsMapFacts.

Lemma mergeHighGasTxs_keepFresh (highGasTxs : list HighGasTx) :
  exists filed : jsmap string HighGasTx,
    consistent hg_hash filed /\ NoDup filed.*1 /\
    forall prev,
      mergeHighGasTxs highGasTxs prev =
      take 12 (map_values filed ++ keepFresh hg_hash filed.*1 prev).
Proof.
  exists (foldl (fun m tx => map_set (hg_hash tx) tx m) [] highGasTxs).
  destruct (fileAll_invariant hg_hash highGasTxs []) as [Hc Hn].
  { intros k v Hin. by apply elem_of_nil in Hin. }
  { constructor. }
  split; [done|]. split; [done|].
  intros prev. unfold mergeHighGasTxs. by rewrite fileAbsent_values.
Qed.

(** A capped merge of a head [D] and a fresh rest: what the two panel
    updaters have in common. *)
Lemma capped_merge_facts {A K : Type} `{EqDecision K} (key : A -> K) (cap : nat)
    (seen : list K) (D : list A) (prev : list A) :
  (forall x, x ∈ D -> key x ∈ seen) ->
  NoDup (key <$> D) ->
  let merge := fun prev => take cap (D ++ keepFresh key seen prev) in
  merge (merge prev) = merge prev /\
  NoDup (key <$> merge prev) /\
  (length (merge prev) <= cap)%nat /\
  merge [] `prefix_of` merge prev.
Proof.
  intros HD Hnd merge. subst merge. cbv beta.
  pose proof (keepFresh_fresh key seen prev) as Hfresh.
  split; [by apply merge_twice|]. split; [|split].
  - rewrite fmap_take. apply NoDup_take_weaken. rewrite fmap_app.
    apply NoDup_app. split; [done|]. destruct Hfresh as [Hndr Hr]. split; [|done].
    intros k (x & -> & Hx)%list_elem_of_fmap (y & Hk & Hy)%list_elem_of_fmap.
    apply (Hr y Hy). rewrite <- Hk. by apply HD.
  - rewrite length_take. lia.
  - cbn [keepFresh]. rewrite app_nil_r, (take_app D _ cap). by apply prefix_app_r.
Qed.

(** C7: merging the same fetched data twice leaves the panel as after
    one merge, for the events log (keyed by event id, at most 20
    entries) and for the high-gas table (keyed by transaction hash, at
    most 12 rows): no key occurs twice, the cap holds, and the entries
    that come from the fetched data stay in front of the older ones. *)
Theorem merge_is_idempotent (newEvents prevEvents : list Event)
    (highGasTxs prevTxs : list HighGasTx) :
  (mergeEvents newEvents (mergeEvents newEvents prevEvents)
     = mergeEvents newEvents prevEvents /\
   NoDup (ev_id <$> mergeEvents newEvents prevEvents) /\
   (length (mergeEvents newEvents prevEvents) <= 20)%nat /\
   mergeEvents newEvents [] `prefix_of` mergeEvents newEvents prevEvents) /\
  (mergeHighGasTxs highGasTxs (mergeHighGasTxs highGasTxs prevTxs)
     = mergeHighGasTxs highGasTxs prevTxs /\
   NoDup (hg_hash <$> mergeHighGasTxs highGasTxs prevTxs) /\
   (length (mergeHighGasTxs highGasTxs prevTxs) <= 12)%nat /\
   mergeHighGasTxs highGasTxs [] `prefix_of` mergeHighGasTxs highGasTxs prevTxs).
Proof.
  split.
  - rewrite !mergeEvents_keepFresh.
    apply (capped_merge_facts ev_id 20 (ev_id <$> newEvents)
             (keepFresh ev_id [] newEvents) prevEvents).
    + intros x [Hx _]%keepFresh_elem. by apply list_elem_of_fmap_2.
    + apply keepFresh_fresh.
  - destruct (mergeHighGasTxs_keepFresh highGasTxs) as (filed & Hc & Hn & Hm).
    rewrite !Hm.
    apply (capped_merge_facts hg_hash 12 filed.*1 (map_values filed) prevTxs).
    + intros x Hx. rewrite <- (consistent_values_keys hg_hash filed Hc).
      by apply list_elem_of_fmap_2.
    + by rewrite (consistent_values_keys hg_hash filed Hc).
Qed.

Example merge_events_twice :
  let e := fun id t =>
    {| ev_id := id; ev_type := HighGasUsage; ev_time := t; ev_address := "0xbb";
       ev_status := StWarning; ev_blockNumber := FNum (Num 100);
       ev_transactionHash := "0x01"; ev_gasUsed := Some "0x7a121" |} in
  mergeEvents [e "event-2" 5; e "event-1" 4] [e "event-1" 4; e "event-0" 3]
    = [e "event-2" 5; e "event-1" 4; e "event-0" 3].
Proof. reflexivity. Qed.

(* ------------------------------------------------------------------ *)
(** ** Event ids *)
(* ------------------------------------------------------------------ *)

























(* ------------------------------------------------------------------ *)
(** ** Failed blocks of the fail-open variant *)
(* ------------------------------------------------------------------ *)

Lemma filterFrom_absent {A B} (blocks : list B) (i : nat) (l : list A) :
  filterFrom (fun _ idx => negb (bool_decide (is_Some (blocks !! idx)))) i l =
  drop (length blocks - i) l.
Proof.
  revert i. induction l as [|x l IH]; intros i; cbn [filterFrom].
  - by rewrite drop_nil.
  - rewrite IH. case_bool_decide as Hi; cbn [negb].
    + apply lookup_lt_is_Some in Hi.
      replace (length blocks - i)%nat with (S (length blocks - S i)) by lia. done.
    + assert (length blocks <= i)%nat
        by (apply Nat.nlt_ge; intros ?; by apply Hi, lookup_lt_is_Some).
      replace (length blocks - i)%nat with 0%nat by lia.
      replace (length blocks - S i)%nat with 0%nat by lia. done.
Qed.

(** What [failedBlocks] holds: the requested numbers past the count of
    blocks that came back, whichever requests failed. *)
Lemma failedBlocksOf_drop (blockNumbers : list jsnum) (blocks : list Block) :
  failedBlocksOf blockNumbers blocks = drop (length blocks) blockNumbers.
Proof.
  unfold failedBlocksOf, filterWithIndex. rewrite filterFrom_absent. f_equal. lia.
Qed.

(** C5 fails on the code: when blocks 100, 99 and 98 are requested and
    only the fetch of block 100 fails, the result has [partial = true]
    but [failedBlocks] is [[98]], a block that was fetched, and block 100
    is not listed. *)
Theorem failed_blocks_misreported :
  exists r w',
    getRecentEcosystemHealthMetrics sampleConfig firstFailsProvider 3 sampleWorld
      = (Returned (Some r), w') /\
    rh_blockCount r = 2%nat /\
    rh_partial r = true /\
    rh_failedBlocks r = [Num 98].
Proof.
  eexists _, _. split; [vm_compute; reflexivity|]. by repeat split.
Qed.

